(** * MAV_Autopilot: the rigid-body integrator and the waypoint path manager

    A shallow embedding of [chp4/mav_dynamics.py] and [chp11/path_manager.py],
    and the properties the specification states about them.

    The Python sources compute on binary64 numbers (numpy [float64] arrays and
    Python [float]s).  The embedding is written once, over an interface
    [Scalar] of the arithmetic the sources use, so that what does not depend
    on rounding is proved for any arithmetic, and read at [float], Rocq's
    primitive binary64 numbers, the arithmetic the program runs on (NaN,
    infinities, underflow and Python's [OverflowError] included); concrete
    runs are computed with it, and what depends on the arithmetic is proved
    from the IEEE 754 specification of its operations.

    The file has five parts: the embedding of the sources; the notions the
    specification uses; the inputs of the concrete runs; the properties the
    specification states; further properties of the sources. *)

From Stdlib Require Import ZArith List String Bool Lia.
From Stdlib Require Import Floats.
From Stdlib Require Import Reals Lra.
Import ListNotations.

Set Implicit Arguments.

(** * Part I: the embedding *)

(** ** Exceptions and the state-and-exception monad *)

(** The Python exceptions the embedded code can raise. *)
Inductive exn : Type :=
| IndexError          (* an index outside a numpy array *)
| OverflowError       (* Python [float ** 2] whose result overflows *)
| ZeroDivisionError.  (* Python [float / float] with a zero divisor *)

(** A computation on a mutable store [St]: it ends in a value or in an
    exception, and the store keeps every write made before the exception. *)
Definition M (St A : Type) : Type := St -> (exn + A) * St.

Definition ret {St A} (a : A) : M St A := fun s => (inr a, s).

Definition bind {St A B} (c : M St A) (k : A -> M St B) : M St B :=
  fun s => match c s with
           | (inr a, s') => k a s'
           | (inl e, s') => (inl e, s')
           end.

Definition get {St} : M St St := fun s => (inr s, s).
Definition modify {St} (f : St -> St) : M St unit := fun s => (inr tt, f s).
Definition lift {St A} (r : exn + A) : M St A := fun s => (r, s).

Declare Scope py_scope.
Delimit Scope py_scope with py.
Notation "x <- c ;; k" := (bind c (fun x => k))
  (at level 61, c at next level, right associativity) : py_scope.
Notation "c ;; k" := (bind c (fun _ => k))
  (at level 61, right associativity) : py_scope.

(** Exceptions alone, for the pure parts. *)
Definition ebind {A B} (r : exn + A) (k : A -> exn + B) : exn + B :=
  match r with inr a => k a | inl e => inl e end.

Notation "x <-- r ;;; k" := (ebind r (fun x => k))
  (at level 61, r at next level, right associativity) : py_scope.

(** ** The arithmetic of the sources *)

Class Scalar (F : Type) : Type := {
  zero : F;
  one : F;
  two : F;
  six : F;
  half : F;                       (* the literal 0.5 *)
  add : F -> F -> F;
  sub : F -> F -> F;
  mul : F -> F -> F;
  div : F -> F -> F;              (* numpy's division: no exception *)
  opp : F -> F;
  sqrt : F -> F;                  (* np.sqrt *)
  ge0 : F -> bool;                (* x >= 0 *)
  py_pow2 : F -> exn + F;         (* Python's x**2 on floats *)
  py_div : F -> F -> exn + F;     (* Python's x / y on floats *)
  ge0_zero : ge0 zero = true
}.

Declare Scope scalar_scope.
Delimit Scope scalar_scope with sc.
Infix "+" := add : scalar_scope.
Infix "-" := sub : scalar_scope.
Infix "*" := mul : scalar_scope.
Infix "/" := div : scalar_scope.
Notation "- x" := (opp x) : scalar_scope.

(** *** binary64 *)

(** Finite: neither an infinity nor NaN. *)
Definition finiteF (x : float) : bool :=
  match Prim2SF x with
  | S754_zero _ | S754_finite _ _ _ => true
  | S754_infinity _ | S754_nan => false
  end.

(** CPython's [float_pow] raises [OverflowError] when a finite base gives an
    infinite result; underflow to zero is silent.  The square is taken as the
    correctly rounded product. *)
Definition float_pow2 (x : float) : exn + float :=
  let y := PrimFloat.mul x x in
  if finiteF x && negb (finiteF y) then inl OverflowError else inr y.

(** CPython's [float_div] raises [ZeroDivisionError] on a zero divisor. *)
Definition float_div (x y : float) : exn + float :=
  if PrimFloat.eqb y 0%float then inl ZeroDivisionError
  else inr (PrimFloat.div x y).

#[export] Instance Scalar_float : Scalar float := {|
  zero := 0%float;
  one := 1%float;
  two := 2%float;
  six := 6%float;
  half := 0.5%float;
  add := PrimFloat.add;
  sub := PrimFloat.sub;
  mul := PrimFloat.mul;
  div := PrimFloat.div;
  opp := PrimFloat.opp;
  sqrt := PrimFloat.sqrt;
  ge0 := fun x => PrimFloat.leb 0%float x;
  py_pow2 := float_pow2;
  py_div := float_div;
  ge0_zero := eq_refl
|}.

(** ** numpy arrays *)

(** Indexing an axis of length [List.length l] at a Python integer: negative
    indices count from the end, anything outside raises [IndexError]. *)
Definition np_index {A} (l : list A) (i : Z) : exn + A :=
  let n := Z.of_nat (List.length l) in
  let j := if (i <? 0)%Z then (i + n)%Z else i in
  if ((0 <=? j) && (j <? n))%Z
  then match nth_error l (Z.to_nat j) with
       | Some a => inr a
       | None => inl IndexError
       end
  else inl IndexError.

(** A column of a 3xN array, or a 3x1 array. *)
Record vec3 (F : Type) : Type := Vec3 { vx : F; vy : F; vz : F }.

Section Vec3.
Context {F : Type} `{Scalar F}.
Local Open Scope scalar_scope.

Definition vadd (a b : vec3 F) : vec3 F :=
  Vec3 (vx a + vx b) (vy a + vy b) (vz a + vz b).
Definition vsub (a b : vec3 F) : vec3 F :=
  Vec3 (vx a - vx b) (vy a - vy b) (vz a - vz b).
(** [v / c] for an array [v] and a number [c]. *)
Definition vdiv (a : vec3 F) (c : F) : vec3 F :=
  Vec3 (vx a / c) (vy a / c) (vz a / c).
(** [a.T @ b] for two 3x1 arrays, the products summed in index order. *)
Definition vdot (a b : vec3 F) : F :=
  vx a * vx b + vy a * vy b + vz a * vz b.
(** [np.linalg.norm] of a vector: the square root of its dot product with
    itself. *)
Definition norm (a : vec3 F) : F := sqrt (vdot a a).
End Vec3.

(** ** chp11/path_manager.py *)

(** The message classes come from [messages/], outside the sources at hand;
    the records carry the attributes [path_manager] reads and writes. *)
Module Path.
Record msg_path (F : Type) : Type := Build {
  flag : string;
  airspeed : F;
  line_origin : vec3 F;
  line_direction : vec3 F;
  flag_path_changed : bool
}.
End Path.

Module Waypoints.
(** [ned] is the 3xN array of positions, held by columns; [airspeed] the
    array of commanded airspeeds.  Their lengths are those of the arrays,
    which [num_waypoints] does not have to equal. *)
Record msg_waypoints (F : Type) : Type := Build {
  flag_waypoints_changed : bool;
  num_waypoints : Z;
  type : string;
  ned : list (vec3 F);
  airspeed : list F
}.
End Waypoints.

(** The attributes of the vehicle state that [line_manager] reads. *)
Record msg_state (F : Type) : Type := MsgState { pn : F; pe : F; h : F }.

Module PathManager.
Import Path Waypoints.
Local Open Scope py_scope.
Local Open Scope Z_scope.

Record path_manager (F : Type) : Type := Build {
  path : msg_path F;
  ptr_previous : Z;
  ptr_current : Z;
  ptr_next : Z;
  flag_need_new_waypoints : bool;
  num_waypoints : Z;
  halfspace_n : vec3 F;
  halfspace_r : vec3 F;
  manager_state : Z
}.

(** What a call of [update] can touch: the manager [self], the waypoint
    object the caller passes (the caller keeps a reference to it, so a write
    to it is visible to the caller afterwards) and the standard output. *)
Record store (F : Type) : Type := Store {
  self : path_manager F;
  waypoints : msg_waypoints F;
  stdout : list string
}.

Section Manager.
Context {F : Type} `{Scalar F}.

Local Abbreviation St := (store F).

(** Attribute writes. *)
Definition on_self (f : path_manager F -> path_manager F) : M St unit :=
  modify (fun s => Store (f (self s)) (waypoints s) (stdout s)).

Definition on_path (f : msg_path F -> msg_path F) : M St unit :=
  on_self (fun m => Build (f (path m)) (ptr_previous m) (ptr_current m)
                      (ptr_next m) (flag_need_new_waypoints m)
                      (num_waypoints m) (halfspace_n m) (halfspace_r m)
                      (manager_state m)).

Definition set_pointers (a b c : Z) : M St unit :=
  on_self (fun m => Build (path m) a b c (flag_need_new_waypoints m)
                      (num_waypoints m) (halfspace_n m) (halfspace_r m)
                      (manager_state m)).

Definition set_flag_need_new_waypoints (b : bool) : M St unit :=
  on_self (fun m => Build (path m) (ptr_previous m) (ptr_current m)
                      (ptr_next m) b (num_waypoints m) (halfspace_n m)
                      (halfspace_r m) (manager_state m)).

Definition set_num_waypoints (n : Z) : M St unit :=
  on_self (fun m => Build (path m) (ptr_previous m) (ptr_current m)
                      (ptr_next m) (flag_need_new_waypoints m) n
                      (halfspace_n m) (halfspace_r m) (manager_state m)).

Definition set_halfspace_n (v : vec3 F) : M St unit :=
  on_self (fun m => Build (path m) (ptr_previous m) (ptr_current m)
                      (ptr_next m) (flag_need_new_waypoints m)
                      (num_waypoints m) v (halfspace_r m) (manager_state m)).

Definition set_halfspace_r (v : vec3 F) : M St unit :=
  on_self (fun m => Build (path m) (ptr_previous m) (ptr_current m)
                      (ptr_next m) (flag_need_new_waypoints m)
                      (num_waypoints m) (halfspace_n m) v (manager_state m)).

Definition set_path_flag (x : string) : M St unit :=
  on_path (fun p => Path.Build x (Path.airspeed p) (line_origin p)
                      (line_direction p) (flag_path_changed p)).

Definition set_path_airspeed (x : F) : M St unit :=
  on_path (fun p => Path.Build (flag p) x (line_origin p)
                      (line_direction p) (flag_path_changed p)).

Definition set_line_origin (x : vec3 F) : M St unit :=
  on_path (fun p => Path.Build (flag p) (Path.airspeed p) x
                      (line_direction p) (flag_path_changed p)).

Definition set_line_direction (x : vec3 F) : M St unit :=
  on_path (fun p => Path.Build (flag p) (Path.airspeed p) (line_origin p)
                      x (flag_path_changed p)).

Definition set_flag_path_changed (x : bool) : M St unit :=
  on_path (fun p => Path.Build (flag p) (Path.airspeed p) (line_origin p)
                      (line_direction p) x).

(** [waypoints.flag_waypoints_changed = b]: a write to the caller's object. *)
Definition set_flag_waypoints_changed (b : bool) : M St unit :=
  modify (fun s =>
    Store (self s)
          (Waypoints.Build b (Waypoints.num_waypoints (waypoints s))
             (type (waypoints s)) (ned (waypoints s))
             (Waypoints.airspeed (waypoints s)))
          (stdout s)).

Definition print (line : string) : M St unit :=
  modify (fun s => Store (self s) (waypoints s) (stdout s ++ [line])).

(** [waypoints.ned[:, self.ptr]] and [waypoints.airspeed.item(self.ptr)]. *)
Definition ned_col (ptr : path_manager F -> Z) : M St (vec3 F) :=
  s <- get ;; lift (np_index (ned (waypoints s)) (ptr (self s))).

Definition airspeed_item (ptr : path_manager F -> Z) : M St F :=
  s <- get ;; lift (np_index (Waypoints.airspeed (waypoints s)) (ptr (self s))).

Definition initialize_pointers : M St unit :=
  set_pointers 0 1 2.

Definition increment_pointers : M St unit :=
  s <- get ;;
  if ptr_current (self s) <? num_waypoints (self s) - 1
  then set_pointers (ptr_previous (self s) + 1) (ptr_current (self s) + 1)
                    (ptr_next (self s) + 1)
  else set_flag_need_new_waypoints true.

Definition inHalfSpace (pos : vec3 F) : M St bool :=
  s <- get ;;
  if ge0 (vdot (vsub pos (halfspace_r (self s))) (halfspace_n (self s)))
  then ret true
  else ret false.

Definition line_manager (state : msg_state F) : M St unit :=
  a <- ned_col (@ptr_next F) ;;
  b <- ned_col (@ptr_current F) ;;
  let qi := vsub a b in
  let qi := vdiv qi (norm qi) in
  a <- ned_col (@ptr_current F) ;;
  b <- ned_col (@ptr_previous F) ;;
  let q_prev := vsub a b in
  let q_prev := vdiv q_prev (norm q_prev) in
  let n := vadd q_prev qi in
  set_halfspace_n (vdiv n (norm n)) ;;
  r <- ned_col (@ptr_current F) ;;
  set_halfspace_r r ;;
  let p := Vec3 (pn state) (pe state) (opp (h state)) in
  crossed <- inHalfSpace p ;;
  if (crossed : bool) then
    set_path_flag "line" ;;
    v <- airspeed_item (@ptr_next F) ;;
    set_path_airspeed v ;;
    o <- ned_col (@ptr_current F) ;;
    set_line_origin o ;;
    set_line_direction qi ;;
    set_flag_path_changed true ;;
    increment_pointers
  else
    set_flag_path_changed false ;;
    set_path_flag "line" ;;
    v <- airspeed_item (@ptr_current F) ;;
    set_path_airspeed v ;;
    o <- ned_col (@ptr_previous F) ;;
    set_line_origin o ;;
    set_line_direction q_prev.

(** The two unfinished managers: [debug = 1] binds a local and returns. *)
Definition fillet_manager (radius : F) (state : msg_state F) : M St unit :=
  ret tt.

Definition dubins_manager (radius : F) (state : msg_state F) : M St unit :=
  ret tt.

Definition update (radius : F) (state : msg_state F) : M St (msg_path F) :=
  s <- get ;;
  (if flag_waypoints_changed (waypoints s) then
     set_num_waypoints (Waypoints.num_waypoints (waypoints s)) ;;
     set_flag_need_new_waypoints false ;;
     initialize_pointers ;;
     set_flag_waypoints_changed false
   else ret tt) ;;
  s <- get ;;
  (if (type (waypoints s) =? "straight_line")%string then
     line_manager state
   else if (type (waypoints s) =? "fillet")%string then
     fillet_manager radius state
   else if (type (waypoints s) =? "dubins")%string then
     dubins_manager radius state
   else
     print "Error in Path Manager: Undefined waypoint type.") ;;
  s <- get ;;
  ret (path (self s)).

End Manager.
End PathManager.

(** ** chp4/mav_dynamics.py *)

(** The 13x1 array [_state = [pn, pe, pd, u, v, w, e0, e1, e2, e3, p, q, r]];
    [itemK] is [state.item(K)]. *)
Record state13 (F : Type) : Type := State13 {
  item0 : F; item1 : F; item2 : F;
  item3 : F; item4 : F; item5 : F;
  item6 : F; item7 : F; item8 : F; item9 : F;
  item10 : F; item11 : F; item12 : F
}.

(** The forces and moments [fx, fy, fz, l, m, n]; [fm_itemK] is
    [forces_moments.item(K)]. *)
Record forces6 (F : Type) : Type := Forces6 {
  fm_item0 : F; fm_item1 : F; fm_item2 : F;
  fm_item3 : F; fm_item4 : F; fm_item5 : F
}.

(** The constants of [parameters/aerosonde_parameters.py] that the integrator
    reads; the parameter file is outside the sources at hand. *)
Record MAV_parameters (F : Type) : Type := MAV {
  mass : F; Jy : F;
  gamma1 : F; gamma2 : F; gamma3 : F; gamma4 : F;
  gamma5 : F; gamma6 : F; gamma7 : F; gamma8 : F
}.

(** The attributes of [StateMsg] that [_update_msg_true_state] writes. *)
Module StateMsg.
Record t (F : Type) : Type := Build {
  pn : F; pe : F; h : F;
  phi : F; theta : F; psi : F;
  p : F; q : F; r : F
}.
End StateMsg.

Section Arrays13.
Context {F : Type} `{Scalar F}.
Local Open Scope scalar_scope.

(** [a + b] on two 13x1 arrays. *)
Definition add13 (a b : state13 F) : state13 F :=
  State13 (item0 a + item0 b) (item1 a + item1 b) (item2 a + item2 b)
          (item3 a + item3 b) (item4 a + item4 b) (item5 a + item5 b)
          (item6 a + item6 b) (item7 a + item7 b) (item8 a + item8 b)
          (item9 a + item9 b) (item10 a + item10 b) (item11 a + item11 b)
          (item12 a + item12 b).

(** [c * a] for a number [c] and a 13x1 array [a]. *)
Definition scale13 (c : F) (a : state13 F) : state13 F :=
  State13 (c * item0 a) (c * item1 a) (c * item2 a)
          (c * item3 a) (c * item4 a) (c * item5 a)
          (c * item6 a) (c * item7 a) (c * item8 a)
          (c * item9 a) (c * item10 a) (c * item11 a)
          (c * item12 a).

(** The writes [_state[6][0] = a], ..., [_state[9][0] = d]. *)
Definition set_item6 (x : state13 F) (a : F) : state13 F :=
  State13 (item0 x) (item1 x) (item2 x) (item3 x) (item4 x) (item5 x)
          a (item7 x) (item8 x) (item9 x) (item10 x) (item11 x) (item12 x).
Definition set_item7 (x : state13 F) (a : F) : state13 F :=
  State13 (item0 x) (item1 x) (item2 x) (item3 x) (item4 x) (item5 x)
          (item6 x) a (item8 x) (item9 x) (item10 x) (item11 x) (item12 x).
Definition set_item8 (x : state13 F) (a : F) : state13 F :=
  State13 (item0 x) (item1 x) (item2 x) (item3 x) (item4 x) (item5 x)
          (item6 x) (item7 x) a (item9 x) (item10 x) (item11 x) (item12 x).
Definition set_item9 (x : state13 F) (a : F) : state13 F :=
  State13 (item0 x) (item1 x) (item2 x) (item3 x) (item4 x) (item5 x)
          (item6 x) (item7 x) (item8 x) a (item10 x) (item11 x) (item12 x).
End Arrays13.

Module MavDynamics.
Local Open Scope py_scope.

Record mav_dynamics (F : Type) : Type := Build {
  ts_simulation : F;
  _state : state13 F;
  msg_true_state : StateMsg.t F
}.

(** The store of a run of [update_state]: the object, and the arguments at
    which [_derivatives] has been called so far, oldest first (a record of
    the calls, not an attribute of the object). *)
Record store (F : Type) : Type := Store {
  self : mav_dynamics F;
  derivative_calls : list (state13 F)
}.

Section Dynamics.
Context {F : Type} `{Scalar F}.
Variable MAVp : MAV_parameters F.

(** [Quaternion2Euler] of [tools/tools.py], outside the sources at hand. *)
Variable Quaternion2Euler : F * F * F * F -> F * F * F.

(** The type of the control inputs, and [calcForcesAndMoments].  In the
    source that method is unfinished: it computes the gravity force, calls
    [calcLongitudinalForcesAndMoments] and ends, without assembling or
    returning the vector.  The vector [update_state] integrates is what the
    method is to deliver, and it enters the model as a parameter. *)
Variable Deltas : Type.
Variable calcForcesAndMoments : mav_dynamics F -> Deltas -> forces6 F.

(** The type of the wind argument, which is passed on and never read. *)
Variable Wind : Type.

Local Abbreviation St := (store F).

Local Open Scope scalar_scope.

(** [_derivatives(state, forces_moments)].  Squares are Python's [x**2] and
    the two reciprocals Python's [1/x], which can raise; each distinct one is
    bound once, in the order the source first evaluates it.  [rIJ] are the
    entries of [Rv_b], and [Rv_b @ [u, v, w]] sums each row's products in
    index order. *)
Definition _derivatives (state : state13 F) (forces_moments : forces6 F)
  : exn + state13 F :=
  let u := item3 state in
  let v := item4 state in
  let w := item5 state in
  let e0 := item6 state in
  let e1 := item7 state in
  let e2 := item8 state in
  let e3 := item9 state in
  let p := item10 state in
  let q := item11 state in
  let r := item12 state in
  let fx := fm_item0 forces_moments in
  let fy := fm_item1 forces_moments in
  let fz := fm_item2 forces_moments in
  let l := fm_item3 forces_moments in
  let m := fm_item4 forces_moments in
  let n := fm_item5 forces_moments in
  (e1_2 <-- py_pow2 e1 ;;;
   e0_2 <-- py_pow2 e0 ;;;
   e2_2 <-- py_pow2 e2 ;;;
   e3_2 <-- py_pow2 e3 ;;;
   let r00 := e1_2 + e0_2 - e2_2 - e3_2 in
   let r01 := two * (e1 * e2 - e3 * e0) in
   let r02 := two * (e1 * e3 + e2 * e0) in
   let r10 := two * (e1 * e2 + e3 * e0) in
   let r11 := e2_2 + e0_2 - e1_2 - e3_2 in
   let r12 := two * (e2 * e3 - e1 * e0) in
   let r20 := two * (e1 * e3 - e2 * e0) in
   let r21 := two * (e2 * e3 + e1 * e0) in
   let r22 := e3_2 + e0_2 - e1_2 - e2_2 in
   let pn_dot := r00 * u + r01 * v + r02 * w in
   let pe_dot := r10 * u + r11 * v + r12 * w in
   let pd_dot := r20 * u + r21 * v + r22 * w in
   inv_mass <-- py_div one (mass MAVp) ;;;
   let u_dot := r * v - q * w + inv_mass * fx in
   let v_dot := p * w - r * u + inv_mass * fy in
   let w_dot := q * u - p * v + inv_mass * fz in
   let e0_dot := (- p * e1 - q * e2 - r * e3) * half in
   let e1_dot := (p * e0 + r * e2 - q * e3) * half in
   let e2_dot := (q * e0 - r * e1 + p * e3) * half in
   let e3_dot := (r * e0 + q * e1 - p * e2) * half in
   let p_dot := gamma1 MAVp * p * q - gamma2 MAVp * q * r
                + gamma3 MAVp * l + gamma4 MAVp * n in
   p_2 <-- py_pow2 p ;;;
   r_2 <-- py_pow2 r ;;;
   inv_Jy <-- py_div one (Jy MAVp) ;;;
   let q_dot := gamma5 MAVp * p * r - gamma6 MAVp * (p_2 - r_2)
                + inv_Jy * m in
   let r_dot := gamma7 MAVp * p * q - gamma1 MAVp * q * r
                + gamma4 MAVp * l + gamma8 MAVp * n in
   inr (State13 pn_dot pe_dot pd_dot u_dot v_dot w_dot
                e0_dot e1_dot e2_dot e3_dot p_dot q_dot r_dot))%py.

(** A call [self._derivatives(x, forces_moments)], entered in the record of
    calls. *)
Definition call_derivatives (x : state13 F) (forces_moments : forces6 F)
  : M St (state13 F) :=
  (modify (fun s => Store (self s) (derivative_calls s ++ [x])) ;;
   lift (_derivatives x forces_moments))%py.

Definition get_state : M St (state13 F) :=
  (s <- get ;; ret (_state (self s)))%py.

Definition set_state (x : state13 F) : M St unit :=
  modify (fun s => Store (Build (ts_simulation (self s)) x
                             (msg_true_state (self s)))
                         (derivative_calls s)).

Definition set_msg_true_state (t : StateMsg.t F) : M St unit :=
  modify (fun s => Store (Build (ts_simulation (self s)) (_state (self s)) t)
                         (derivative_calls s)).

(** [updateVelocityData]: [debug = 1] binds a local and returns. *)
Definition updateVelocityData (wind : Wind) : M St unit := ret tt.

Definition _update_msg_true_state : M St unit :=
  (x <- get_state ;;
   let '(phi, theta, psi) :=
     Quaternion2Euler (item6 x, item7 x, item8 x, item9 x) in
   set_msg_true_state
     (StateMsg.Build (item0 x) (item1 x) (- item2 x) phi theta psi
                     (item10 x) (item11 x) (item12 x)))%py.

(** Lines 48-54: the Runge-Kutta step, written into [_state] in place. *)
Definition rk4_block (forces_moments : forces6 F) : M St unit :=
  (s <- get ;;
   let time_step := ts_simulation (self s) in
   x <- get_state ;;
   k1 <- call_derivatives x forces_moments ;;
   x <- get_state ;;
   k2 <- call_derivatives (add13 x (scale13 (time_step / two) k1))
                          forces_moments ;;
   x <- get_state ;;
   k3 <- call_derivatives (add13 x (scale13 (time_step / two) k2))
                          forces_moments ;;
   x <- get_state ;;
   k4 <- call_derivatives (add13 x (scale13 time_step k3)) forces_moments ;;
   x <- get_state ;;
   set_state
     (add13 x
        (scale13 (time_step / six)
           (add13 (add13 (add13 k1 (scale13 two k2)) (scale13 two k3)) k4))))%py.

(** Lines 56-65: the quaternion divided by its norm. *)
Definition normalize_block : M St unit :=
  (x <- get_state ;;
   let e0 := item6 x in
   let e1 := item7 x in
   let e2 := item8 x in
   let e3 := item9 x in
   e0_2 <- lift (py_pow2 e0) ;;
   e1_2 <- lift (py_pow2 e1) ;;
   e2_2 <- lift (py_pow2 e2) ;;
   e3_2 <- lift (py_pow2 e3) ;;
   let normE := sqrt (e0_2 + e1_2 + e2_2 + e3_2) in
   x <- get_state ;; set_state (set_item6 x (item6 x / normE)) ;;
   x <- get_state ;; set_state (set_item7 x (item7 x / normE)) ;;
   x <- get_state ;; set_state (set_item8 x (item8 x / normE)) ;;
   x <- get_state ;; set_state (set_item9 x (item9 x / normE)))%py.

Definition update_state (deltas : Deltas) (wind : Wind) : M St unit :=
  (s <- get ;;
   let forces_moments := calcForcesAndMoments (self s) deltas in
   rk4_block forces_moments ;;
   normalize_block ;;
   updateVelocityData wind ;;
   _update_msg_true_state)%py.

End Dynamics.
End MavDynamics.

(** ** The lift computation of [calcLongitudinalForcesAndMoments] *)

(** The method is written with the exponential, the sine and the cosine, and
    is read here in exact real arithmetic.  Its text does not parse as
    Python: the two continuation lines end in [/..] and [+ ..], read as the
    operators [/] and [+] carried onto the next line, and the denominator of
    [sigma_alpha] has [alpha 0 alpha0], read as [alpha - alpha0] as in the
    numerator.  The method ends after [F_lift] and returns nothing; the
    three definitions below are its three assignments. *)

Module LongitudinalForces.
Local Open Scope R_scope.

(** The constants of the parameter file that the method reads. *)
Record aero_parameters : Type := Aero {
  M_ : R;            (* MAV.M *)
  alpha0 : R;
  rho : R;
  S_wing : R;
  c : R;
  C_L_0 : R;
  C_L_alpha : R;
  C_L_q : R;
  C_L_delta_e : R
}.

(** [np.sign]. *)
Definition np_sign (x : R) : R :=
  if Rlt_dec x 0 then -1 else if Rlt_dec 0 x then 1 else 0.

Section Lift.
Variable MAVa : aero_parameters.

(** [alpha], [Va] and [q] are read from [msg_true_state]; [de] is the
    argument. *)
Definition sigma_alpha (alpha : R) : R :=
  (1 + exp (- M_ MAVa * (alpha - alpha0 MAVa))
     + exp (M_ MAVa * (alpha + alpha0 MAVa)))
  / ((1 + exp (- M_ MAVa * (alpha - alpha0 MAVa)))
     * (1 + exp (M_ MAVa * (alpha + alpha0 MAVa)))).

Definition CL_alpha (alpha : R) : R :=
  (1 - sigma_alpha alpha) * (C_L_0 MAVa + C_L_alpha MAVa)
  + sigma_alpha alpha * (2 * np_sign alpha * (sin alpha * sin alpha) * cos alpha).

Definition F_lift (alpha Va q de : R) : R :=
  1 / 2 * rho MAVa * (Va * Va) * S_wing MAVa
  * (CL_alpha alpha + C_L_q MAVa * (c MAVa / (2 * Va)) * q
     + C_L_delta_e MAVa * de).

End Lift.
End LongitudinalForces.

(** * Part II: the notions of the specification *)

(** ** The path manager *)

Module PathManagerSpec.
Import Path Waypoints PathManager.
Local Open Scope Z_scope.

Section Spec.
Context {F : Type} `{Scalar F}.

(** The unit vector from [a] to [b]: their difference over its norm. *)
Definition unit_vector (a b : vec3 F) : vec3 F :=
  vdiv (vsub b a) (norm (vsub b a)).

Definition normalize (v : vec3 F) : vec3 F := vdiv v (norm v).

(** The vehicle position [(pn, pe, -h)]. *)
Definition position (state : msg_state F) : vec3 F :=
  Vec3 (pn state) (pe state) (opp (h state)).

(** The half-space at waypoint [wcur] between the segments from [wprev] and
    to [wnext], and its test. *)
Definition halfspace_normal (wprev wcur wnext : vec3 F) : vec3 F :=
  normalize (vadd (unit_vector wprev wcur) (unit_vector wcur wnext)).

Definition crossed (wprev wcur wnext : vec3 F) (state : msg_state F) : bool :=
  ge0 (vdot (vsub (position state) wcur) (halfspace_normal wprev wcur wnext)).

(** The pointer triple of a manager. *)
Definition pointers (m : path_manager F) : Z * Z * Z :=
  (ptr_previous m, ptr_current m, ptr_next m).

(** The store once [update] has dealt with the waypoints-changed flag
    (lines 29-33). *)
Definition list_change_handled (s : store F) : store F :=
  if flag_waypoints_changed (waypoints s)
  then Store
         (Build (path (self s)) 0 1 2 false
                (Waypoints.num_waypoints (waypoints s))
                (halfspace_n (self s)) (halfspace_r (self s))
                (manager_state (self s)))
         (Waypoints.Build false (Waypoints.num_waypoints (waypoints s))
                          (type (waypoints s)) (ned (waypoints s))
                          (Waypoints.airspeed (waypoints s)))
         (stdout s)
  else s.

(** The pointers the geometry of a call is computed at. *)
Definition in_bounds (s : store F) (wprev wcur wnext : vec3 F)
                     (acur anext : F) : Prop :=
  np_index (ned (waypoints s)) (ptr_previous (self s)) = inr wprev /\
  np_index (ned (waypoints s)) (ptr_current (self s)) = inr wcur /\
  np_index (ned (waypoints s)) (ptr_next (self s)) = inr wnext /\
  np_index (Waypoints.airspeed (waypoints s)) (ptr_current (self s)) = inr acur /\
  np_index (Waypoints.airspeed (waypoints s)) (ptr_next (self s)) = inr anext.

(** [keeps s s']: from [s] to [s'] the caller's waypoint object, the standard
    output, [num_waypoints] and the pointers are unchanged.  [steps s s']:
    the same, except that the pointers may all have moved up by one, which
    needs [ptr_current < num_waypoints - 1] in [s]. *)
Definition keeps (s s' : store F) : Prop :=
  waypoints s' = waypoints s /\
  stdout s' = stdout s /\
  num_waypoints (self s') = num_waypoints (self s) /\
  pointers (self s') = pointers (self s).

Definition steps (s s' : store F) : Prop :=
  waypoints s' = waypoints s /\
  stdout s' = stdout s /\
  num_waypoints (self s') = num_waypoints (self s) /\
  (pointers (self s') = pointers (self s) \/
   (ptr_current (self s) < num_waypoints (self s) - 1 /\
    pointers (self s') =
    (ptr_previous (self s) + 1, ptr_current (self s) + 1,
     ptr_next (self s) + 1))).

Definition Keeps {A} (c : M (store F) A) : Prop :=
  forall s, keeps s (snd (c s)).

Definition Steps {A} (c : M (store F) A) : Prop :=
  forall s, steps s (snd (c s)).

End Spec.
End PathManagerSpec.

(** ** The integrator *)

Module MavDynamicsSpec.
Import MavDynamics.

Section Spec.
Context {F : Type} `{Scalar F}.
Variable Quaternion2Euler : F * F * F * F -> F * F * F.
Variable Wind : Type.

Local Open Scope scalar_scope.

(** The notions of the specification: the two midpoint estimates, the
    endpoint estimate and the combination with weights (1, 2, 2, 1)/6. *)
Definition midpoint (time_step : F) (x k : state13 F) : state13 F :=
  add13 x (scale13 (time_step / two) k).

Definition endpoint (time_step : F) (x k : state13 F) : state13 F :=
  add13 x (scale13 time_step k).

Definition rk4_combination (time_step : F) (x k1 k2 k3 k4 : state13 F)
  : state13 F :=
  add13 x
    (scale13 (time_step / six)
       (add13 (add13 (add13 k1 (scale13 two k2)) (scale13 two k3)) k4)).

(** The quaternion of a state divided by [normE]. *)
Definition quaternion_over (x : state13 F) (normE : F) : state13 F :=
  State13 (item0 x) (item1 x) (item2 x) (item3 x) (item4 x) (item5 x)
          (item6 x / normE) (item7 x / normE) (item8 x / normE)
          (item9 x / normE) (item10 x) (item11 x) (item12 x).

(** The message [_update_msg_true_state] builds from a state. *)
Definition true_state_of (x : state13 F) : StateMsg.t F :=
  let '(phi, theta, psi) :=
    Quaternion2Euler (item6 x, item7 x, item8 x, item9 x) in
  StateMsg.Build (item0 x) (item1 x) (- item2 x) phi theta psi
                 (item10 x) (item11 x) (item12 x).

(** Two states that agree outside the quaternion. *)
Definition same_outside_quaternion (x y : state13 F) : Prop :=
  item0 x = item0 y /\ item1 x = item1 y /\ item2 x = item2 y /\
  item3 x = item3 y /\ item4 x = item4 y /\ item5 x = item5 y /\
  item10 x = item10 y /\ item11 x = item11 y /\ item12 x = item12 y.

(** The tail of the step, from the normalisation on. *)
Definition after_rk4 (wind : Wind) : M (store F) unit :=
  bind normalize_block
    (fun _ => bind (updateVelocityData wind)
       (fun _ => _update_msg_true_state Quaternion2Euler)).

End Spec.

End MavDynamicsSpec.

(** ** The lift *)

Module LiftSpec.
Import LongitudinalForces.
Local Open Scope R_scope.

Section Spec.
Variable MAVa : aero_parameters.

(** The formulas of the specification. *)
Definition sigma_spec (alpha : R) : R :=
  (1 + exp (- (M_ MAVa * (alpha - alpha0 MAVa)))
     + exp (M_ MAVa * (alpha + alpha0 MAVa)))
  / ((1 + exp (- (M_ MAVa * (alpha - alpha0 MAVa))))
     * (1 + exp (M_ MAVa * (alpha + alpha0 MAVa)))).

Definition blended_lift_coefficient (alpha : R) : R :=
  (1 - sigma_spec alpha) * (C_L_0 MAVa + C_L_alpha MAVa * alpha)
  + sigma_spec alpha * (2 * np_sign alpha * (sin alpha)² * cos alpha).

Definition lift_force (CL Va q de : R) : R :=
  / 2 * rho MAVa * Va² * S_wing MAVa
  * (CL + C_L_q MAVa * (c MAVa / (2 * Va)) * q + C_L_delta_e MAVa * de).

End Spec.
End LiftSpec.

(** ** Finiteness on binary64 *)

Module Binary64.

Definition finite3 (v : vec3 float) : bool :=
  finiteF (vx v) && finiteF (vy v) && finiteF (vz v).

Definition nan3 : vec3 float := Vec3 nan nan nan.

Definition finite6 (f : forces6 float) : bool :=
  finiteF (fm_item0 f) && finiteF (fm_item1 f) && finiteF (fm_item2 f) &&
  finiteF (fm_item3 f) && finiteF (fm_item4 f) && finiteF (fm_item5 f).

Definition finite13 (x : state13 float) : bool :=
  finiteF (item0 x) && finiteF (item1 x) && finiteF (item2 x) &&
  finiteF (item3 x) && finiteF (item4 x) && finiteF (item5 x) &&
  finiteF (item6 x) && finiteF (item7 x) && finiteF (item8 x) &&
  finiteF (item9 x) && finiteF (item10 x) && finiteF (item11 x) &&
  finiteF (item12 x).

End Binary64.

(** * Part III: the inputs of the concrete runs *)

(** ** Waypoint lists *)

Module PathManagerInputs.
Import Path Waypoints PathManager Binary64.
Local Open Scope Z_scope.

(** A manager as [__init__] leaves it.  The contents of the fresh
    [msg_path()] are not in the sources at hand; they are taken as a line
    from the origin along north at 25 m/s, and play no part. *)
Definition fresh_path : msg_path float :=
  Path.Build "line" 25%float (Vec3 0 0 0)%float (Vec3 1 0 0)%float true.

Definition fresh_manager : path_manager float :=
  PathManager.Build fresh_path 0 1 2 true 0
    (Vec3 infinity infinity infinity) (Vec3 infinity infinity infinity) 1.

Definition waypoint_list (ty : string) (ned : list (vec3 float))
  : msg_waypoints float :=
  Waypoints.Build true (Z.of_nat (List.length ned)) ty ned
                  (List.map (fun _ => 20%float) ned).

Definition start (ty : string) (ned : list (vec3 float)) : store float :=
  Store fresh_manager (waypoint_list ty ned) [].

(** The square route of the specification. *)
Definition square_route : list (vec3 float) :=
  [Vec3 0 0 0; Vec3 100 0 0; Vec3 100 100 0; Vec3 0 100 0]%float.

(** The degenerate list of the specification. *)
Definition degenerate_route : list (vec3 float) :=
  [Vec3 0 0 0; Vec3 0 0 0; Vec3 10 0 0]%float.

(** Three waypoints in a row. *)
Definition short_route : list (vec3 float) :=
  [Vec3 0 0 0; Vec3 10 0 0; Vec3 20 0 0]%float.

Definition at_position (x y z : float) : msg_state float :=
  MsgState x y (PrimFloat.opp z).

End PathManagerInputs.

(** ** Steps on binary64 *)

Module FloatInputs.
Import MavDynamics MavDynamicsSpec.
Local Open Scope float_scope.

(** Constants of the size of the Aerosonde's; the runs below do not depend
    on their values. *)
Definition parameters : MAV_parameters float :=
  MAV 11 1.125 0.125 0.75 1.25 0.125 0.5 0.125 0.25 0.625.

Definition no_euler (_ : float * float * float * float)
  : float * float * float := (0, 0, 0)%float.

Definition given_forces (_ : mav_dynamics float) (d : forces6 float)
  : forces6 float := d.

Definition step (fm : forces6 float) (s : store float)
  : (exn + unit) * store float :=
  update_state parameters no_euler given_forces fm tt s.

Definition vehicle (x : state13 float) : store float :=
  Store (Build 0.015625 x (StateMsg.Build 0 0 0 0 0 0 0 0 0)) [].

Definition no_forces : forces6 float := Forces6 0 0 0 0 0 0.

(** Level flight at 25 m/s, 100 m up, attitude (1, 0, 0, 0). *)
Definition level_flight : state13 float :=
  State13 0 0 (-100) 25 0 0 1 0 0 0 0 0 0.

(** The same with the attitude quaternion (2^-700, 0, 0, 0): finite and not
    zero, and so small that its square underflows. *)
Definition tiny_quaternion : state13 float :=
  State13 0 0 (-100) 25 0 0 0x1p-700 0 0 0 0 0 0.

(** The norm of the stored quaternion and the test against 1e-9 (the binary64
    number nearest to it, as Python reads the literal), computed in
    binary64. *)
Definition quaternion_norm64 (x : state13 float) : float :=
  PrimFloat.sqrt (item6 x * item6 x + item7 x * item7 x +
                  item8 x * item8 x + item9 x * item9 x)%float.

Definition unit_within_tolerance (x : state13 float) : bool :=
  PrimFloat.leb (PrimFloat.abs (quaternion_norm64 x - 1)) 0x1.12e0be826d695p-30.

(** A climbing turn under thrust and a pitching moment. *)
Definition manoeuvre : state13 float :=
  State13 0 0 (-100) 25 1 2 1 0 0 0 0.5 0.25 0.125.

Definition thrust : forces6 float := Forces6 8 0 0 0 0.5 0.

Definition rate_at (x : state13 float) : state13 float :=
  match _derivatives parameters x thrust with
  | inr k => k
  | inl _ => x
  end.

Definition k1 : state13 float := Eval vm_compute in rate_at manoeuvre.
Definition k2 : state13 float :=
  Eval vm_compute in rate_at (midpoint 0.015625 manoeuvre k1).
Definition k3 : state13 float :=
  Eval vm_compute in rate_at (midpoint 0.015625 manoeuvre k2).
Definition k4 : state13 float :=
  Eval vm_compute in rate_at (endpoint 0.015625 manoeuvre k3).

End FloatInputs.

(** ** Lift constants *)

Module LiftInputs.
Import LongitudinalForces.
Local Open Scope R_scope.

(** Lift constants of the size of the Aerosonde's. *)
Definition aerosonde : aero_parameters :=
  Aero 50 (4712 / 10000) (12682 / 10000) (55 / 100) (18994 / 100000)
       (28 / 100) (345 / 100) 0 (-36 / 100).

End LiftInputs.

(** ** Repeated calls of the path manager *)

Module PathManagerCalls.
Import Path Waypoints PathManager PathManagerSpec.
Local Open Scope Z_scope.

Section Calls.
Context {F : Type} `{Scalar F}.

(** A caller that calls [update] again and again with the same manager and
    the same waypoint object, whatever each call returns or raises: the
    store after the calls, each given by its radius and vehicle state. *)
Definition updates (calls : list (F * msg_state F)) (s : store F) : store F :=
  fold_left (fun s c => snd (update (fst c) (snd c) s)) calls s.

(** The pointers are consecutive, start at or above 0, and [ptr_current]
    is an index of the list. *)
Definition pointers_in_list (s : store F) : Prop :=
  0 <= ptr_previous (self s) /\
  ptr_current (self s) = ptr_previous (self s) + 1 /\
  ptr_next (self s) = ptr_current (self s) + 1 /\
  ptr_current (self s) <= num_waypoints (self s) - 1.

(** A manager settled on a list of [N] waypoints that has not changed
    since. *)
Definition settled (N : Z) (s : store F) : Prop :=
  flag_waypoints_changed (waypoints s) = false /\
  num_waypoints (self s) = N /\
  pointers_in_list s.

(** From [s] to [s'] a raised need-new-waypoints flag stays raised. *)
Definition flag_kept (s s' : store F) : Prop :=
  flag_need_new_waypoints (self s) = true ->
  flag_need_new_waypoints (self s') = true.

Definition Flag_kept {A} (c : M (store F) A) : Prop :=
  forall s, flag_kept s (snd (c s)).

End Calls.
End PathManagerCalls.

(** ** More inputs for the path manager *)

Module PathManagerInputsMore.
Import Path Waypoints PathManager PathManagerInputs.

(** A zero of either sign. *)
Definition zeroF (x : float) : bool :=
  match Prim2SF x with
  | S754_zero _ => true
  | _ => false
  end.

(** A list too short for the three pointers. *)
Definition two_waypoints : list (vec3 float) :=
  [Vec3 0 0 0; Vec3 10 0 0]%float.

(** A flight along the square route: at its second and at its third
    waypoint, then short of the end. *)
Definition square_flight : list (float * msg_state float) :=
  [(0, at_position 100 0 0); (0, at_position 100 100 0);
   (0, at_position 50 100 0)]%float.

(** The square route once the vehicle, at (50, 0, 0), has been given its
    first segment. *)
Definition on_first_segment : store float :=
  snd (update 0%float (at_position 50 0 0)
         (start "straight_line" square_route)).

(** Three waypoints held in arrays of four columns, the fourth left over
    from an earlier list; and the manager once the vehicle has passed the
    second and the third waypoint. *)
Definition padded_list : msg_waypoints float :=
  Waypoints.Build true 3 "straight_line"
    [Vec3 0 0 0; Vec3 10 0 0; Vec3 20 0 0; Vec3 30 0 0]%float
    [20; 20; 20; 20]%float.

Definition at_end_of_route : store float :=
  PathManagerCalls.updates
    [(0, at_position 15 0 0); (0, at_position 25 0 0)]%float
    (Store fresh_manager padded_list []).

End PathManagerInputsMore.

(** ** Notions of the rigid-body kinematics *)

Module MavDynamicsNotions.

Section Notions.
Context {F : Type} `{Scalar F}.

(** No angular rate; no moment. *)
Definition no_rotation (x : state13 F) : Prop :=
  item10 x = zero /\ item11 x = zero /\ item12 x = zero.

Definition no_moments (fm : forces6 F) : Prop :=
  fm_item3 fm = zero /\ fm_item4 fm = zero /\ fm_item5 fm = zero.

End Notions.

Import PathManagerInputsMore.
Local Open Scope float_scope.

(** Two binary64 numbers that are equal, or zeros that differ in sign at
    most. *)
Definition same_number (a b : float) : Prop :=
  a = b \/ (zeroF a = true /\ zeroF b = true).

(** A rate whose quaternion and angular-rate components are zeros. *)
Definition rotation_free (k : state13 float) : Prop :=
  zeroF (item6 k) = true /\ zeroF (item7 k) = true /\
  zeroF (item8 k) = true /\ zeroF (item9 k) = true /\
  zeroF (item10 k) = true /\ zeroF (item11 k) = true /\
  zeroF (item12 k) = true.

(** A state without angular rate whose quaternion is the one of [x0]. *)
Definition calm (x0 x : state13 float) : Prop :=
  no_rotation x /\
  same_number (item6 x) (item6 x0) /\ same_number (item7 x) (item7 x0) /\
  same_number (item8 x) (item8 x0) /\ same_number (item9 x) (item9 x0).

(** The constants the rotational rates are computed from: a nonzero mass
    and pitch inertia, a finite [1/Jy], finite inertia coefficients, and a
    finite time step with finite [Ts/2] and [Ts/6]. *)
Definition usable (MAVp : MAV_parameters float) (time_step : float) : bool :=
  negb (PrimFloat.eqb (mass MAVp) 0) && negb (PrimFloat.eqb (Jy MAVp) 0) &&
  finiteF (1 / Jy MAVp) &&
  finiteF (gamma1 MAVp) && finiteF (gamma2 MAVp) && finiteF (gamma3 MAVp) &&
  finiteF (gamma4 MAVp) && finiteF (gamma5 MAVp) && finiteF (gamma6 MAVp) &&
  finiteF (gamma7 MAVp) && finiteF (gamma8 MAVp) &&
  finiteF time_step && finiteF (time_step / 2) && finiteF (time_step / 6).

(** The squares of the four quaternion components do not overflow. *)
Definition squares_in_range (x : state13 float) : bool :=
  finiteF (item6 x * item6 x) && finiteF (item7 x * item7 x) &&
  finiteF (item8 x * item8 x) && finiteF (item9 x * item9 x).

(** The norm of the quaternion as [update_state] computes it. *)
Definition computed_norm (x : state13 float) : float :=
  PrimFloat.sqrt (item6 x * item6 x + item7 x * item7 x
                  + item8 x * item8 x + item9 x * item9 x).

End MavDynamicsNotions.

(** ** More states of the vehicle *)

Module FloatInputsMore.
Local Open Scope float_scope.

(** A banked glide: side slip, a quaternion off the axes (of norm 1), no
    angular rate; and forces without moments. *)
Definition banked_glide : state13 float :=
  State13 0 0 (-100) 25 1 2 0.5 0.5 0.5 0.5 0 0 0.

Definition drag_and_lift : forces6 float := Forces6 (-3) 0 (-100) 0 0 0.

(** A quaternion whose first component, 2^600, has a square beyond
    binary64. *)
Definition huge_quaternion : state13 float :=
  State13 0 0 (-100) 25 0 0 0x1p600 0 0 0 0 0 0.

End FloatInputsMore.

(** * Part IV: the properties *)

(** ** The monad *)

(** Running a bind whose first part returns. *)
Lemma bind_ok {St A B} (c : M St A) (k : A -> M St B) (s s' : St) (a : A) :
  c s = (inr a, s') -> bind c k s = k a s'.
Proof. intros Hc. unfold bind. rewrite Hc. reflexivity. Qed.

Lemma bind_fail {St A B} (c : M St A) (k : A -> M St B) (s s' : St) (e : exn) :
  c s = (inl e, s') -> bind c k s = (inl e, s').
Proof. intros Hc. unfold bind. rewrite Hc. reflexivity. Qed.

(** ** Properties of the path manager *)

Module PathManagerFacts.
Import Path Waypoints PathManager PathManagerSpec.
Local Open Scope Z_scope.

Section Generic.
Context {F : Type} `{Scalar F}.

Lemma list_change_handled_type (s : store F) :
  type (waypoints (list_change_handled s)) = type (waypoints s).
Proof.
  unfold list_change_handled.
  destruct (flag_waypoints_changed (waypoints s)); reflexivity.
Qed.

(** [update] is the dispatch on the type run on the store left by the
    handling of the flag, followed by the read of [self.path]. *)
Lemma update_unfold (radius : F) (state : msg_state F) (s : store F) :
  update radius state s =
  let s1 := list_change_handled s in
  let c :=
    if (type (waypoints s1) =? "straight_line")%string then
      line_manager state
    else if (type (waypoints s1) =? "fillet")%string then
      fillet_manager radius state
    else if (type (waypoints s1) =? "dubins")%string then
      dubins_manager radius state
    else print "Error in Path Manager: Undefined waypoint type." in
  match c s1 with
  | (inr _, s2) => (inr (path (self s2)), s2)
  | (inl e, s2) => (inl e, s2)
  end.
Proof.
  unfold update, list_change_handled, bind, get. cbn.
  destruct (flag_waypoints_changed (waypoints s)); reflexivity.
Qed.

(** Running the statements of [line_manager] one at a time. *)

Lemma ned_col_ok (ptr : path_manager F -> Z) (s : store F) (w : vec3 F) :
  np_index (ned (waypoints s)) (ptr (self s)) = inr w ->
  ned_col ptr s = (inr w, s).
Proof. intros Hw. unfold ned_col, bind, get, lift. rewrite Hw. reflexivity. Qed.

Lemma airspeed_item_ok (ptr : path_manager F -> Z) (s : store F) (a : F) :
  np_index (Waypoints.airspeed (waypoints s)) (ptr (self s)) = inr a ->
  airspeed_item ptr s = (inr a, s).
Proof.
  intros Ha. unfold airspeed_item, bind, get, lift. rewrite Ha. reflexivity.
Qed.

Lemma inHalfSpace_run (pos : vec3 F) (s : store F) :
  inHalfSpace pos s =
  (inr (ge0 (vdot (vsub pos (halfspace_r (self s))) (halfspace_n (self s)))),
   s).
Proof.
  unfold inHalfSpace, bind, get, ret. cbn. destruct (ge0 _); reflexivity.
Qed.

Lemma increment_pointers_run (s : store F) :
  increment_pointers s =
  (inr tt,
   let m := self s in
   if ptr_current m <? num_waypoints m - 1
   then Store (Build (path m) (ptr_previous m + 1) (ptr_current m + 1)
                     (ptr_next m + 1) (flag_need_new_waypoints m)
                     (num_waypoints m) (halfspace_n m) (halfspace_r m)
                     (manager_state m))
              (waypoints s) (stdout s)
   else Store (Build (path m) (ptr_previous m) (ptr_current m) (ptr_next m)
                     true (num_waypoints m) (halfspace_n m) (halfspace_r m)
                     (manager_state m))
              (waypoints s) (stdout s)).
Proof.
  unfold increment_pointers, bind, get. cbn.
  destruct (ptr_current (self s) <? num_waypoints (self s) - 1); reflexivity.
Qed.

(** One statement: a read through a pointer, or a write. *)
Ltac run_read :=
  erewrite bind_ok
    by (first [ apply ned_col_ok | apply airspeed_item_ok ]; cbn; eassumption).

Ltac run_write :=
  erewrite bind_ok by reflexivity;
  cbn [self waypoints stdout path ptr_previous ptr_current ptr_next
       flag_need_new_waypoints num_waypoints halfspace_n halfspace_r
       manager_state flag Path.airspeed line_origin line_direction
       flag_path_changed].

(** What [line_manager] does when its five reads are in bounds. *)
Lemma line_manager_in_bounds (state : msg_state F) (s : store F)
      (wprev wcur wnext : vec3 F) (acur anext : F) :
  in_bounds s wprev wcur wnext acur anext ->
  line_manager state s =
  (inr tt,
   let m := self s in
   let n := halfspace_normal wprev wcur wnext in
   if crossed wprev wcur wnext state then
     let p := Path.Build "line" anext wcur (unit_vector wcur wnext) true in
     if ptr_current m <? num_waypoints m - 1
     then Store (Build p (ptr_previous m + 1) (ptr_current m + 1)
                       (ptr_next m + 1) (flag_need_new_waypoints m)
                       (num_waypoints m) n wcur (manager_state m))
                (waypoints s) (stdout s)
     else Store (Build p (ptr_previous m) (ptr_current m) (ptr_next m)
                       true (num_waypoints m) n wcur (manager_state m))
                (waypoints s) (stdout s)
   else
     let p := Path.Build "line" acur wprev (unit_vector wprev wcur) false in
     Store (Build p (ptr_previous m) (ptr_current m) (ptr_next m)
                  (flag_need_new_waypoints m) (num_waypoints m) n wcur
                  (manager_state m))
           (waypoints s) (stdout s)).
Proof.
  intros (Hp & Hc & Hn & Hac & Han).
  unfold line_manager.
  do 4 run_read. cbv zeta.
  run_write. run_read. run_write.
  erewrite bind_ok by apply inHalfSpace_run. cbn.
  unfold crossed, halfspace_normal, normalize, unit_vector, position.
  destruct (ge0 _).
  - run_write. run_read. run_write. run_read. do 3 run_write.
    rewrite increment_pointers_run. cbn.
    destruct (ptr_current (self s) <? num_waypoints (self s) - 1); reflexivity.
  - do 2 run_write. run_read. run_write. run_read. run_write. reflexivity.
Qed.

(** *** What [line_manager] leaves alone *)

Lemma keeps_refl (s : store F) : keeps s s.
Proof. repeat split. Qed.

Lemma Keeps_bind {A B} (c : M (store F) A) (k : A -> M (store F) B) :
  Keeps c -> (forall a, Keeps (k a)) -> Keeps (bind c k).
Proof.
  intros Hc Hk s. unfold bind. specialize (Hc s).
  destruct (c s) as [[e | a] s1]; cbn in *; [ exact Hc | ].
  specialize (Hk a s1). destruct Hc as (c1 & c2 & c3 & c4).
  destruct Hk as (k1 & k2 & k3 & k4).
  repeat split; congruence.
Qed.

Lemma Steps_bind {A B} (c : M (store F) A) (k : A -> M (store F) B) :
  Keeps c -> (forall a, Steps (k a)) -> Steps (bind c k).
Proof.
  intros Hc Hk s. unfold bind. specialize (Hc s).
  destruct (c s) as [[e | a] s1]; cbn in *.
  - destruct Hc as (c1 & c2 & c3 & c4). repeat split; auto.
  - specialize (Hk a s1). destruct Hc as (c1 & c2 & c3 & c4).
    destruct Hk as (k1 & k2 & k3 & k4).
    unfold pointers in *. injection c4 as c4 c5 c6.
    repeat split; try congruence.
    destruct k4 as [k4 | [klt k4]].
    + left. unfold pointers. congruence.
    + right. split; [ lia | ]. unfold pointers. rewrite k4, c4, c5, c6.
      reflexivity.
Qed.

Lemma Steps_of_Keeps {A} (c : M (store F) A) : Keeps c -> Steps c.
Proof.
  intros Hc s. destruct (Hc s) as (c1 & c2 & c3 & c4). repeat split; auto.
Qed.

Lemma Keeps_ret {A} (a : A) : Keeps (F := F) (ret a).
Proof. intros s. apply keeps_refl. Qed.

Lemma Keeps_get : Keeps (F := F) get.
Proof. intros s. apply keeps_refl. Qed.

Lemma Keeps_lift {A} (r : exn + A) : Keeps (F := F) (lift r).
Proof. intros s. apply keeps_refl. Qed.

Lemma Keeps_on_path (f : msg_path F -> msg_path F) : Keeps (on_path f).
Proof. intros s. repeat split. Qed.

Lemma Keeps_set_halfspace_n (v : vec3 F) : Keeps (set_halfspace_n v).
Proof. intros s. repeat split. Qed.

Lemma Keeps_set_halfspace_r (v : vec3 F) : Keeps (set_halfspace_r v).
Proof. intros s. repeat split. Qed.

Lemma Keeps_ned_col (ptr : path_manager F -> Z) : Keeps (ned_col ptr).
Proof.
  unfold ned_col. apply Keeps_bind; [ apply Keeps_get | intros a ].
  apply Keeps_lift.
Qed.

Lemma Keeps_airspeed_item (ptr : path_manager F -> Z) :
  Keeps (airspeed_item ptr).
Proof.
  unfold airspeed_item. apply Keeps_bind; [ apply Keeps_get | intros a ].
  apply Keeps_lift.
Qed.

Lemma Keeps_inHalfSpace (pos : vec3 F) : Keeps (inHalfSpace pos).
Proof.
  unfold inHalfSpace. apply Keeps_bind; [ apply Keeps_get | intros a ].
  destruct (ge0 _); apply Keeps_ret.
Qed.

Lemma Steps_increment_pointers : Steps (F := F) increment_pointers.
Proof.
  intros s. unfold increment_pointers, bind, get. cbn.
  destruct (Z.ltb_spec (ptr_current (self s)) (num_waypoints (self s) - 1));
    cbn; repeat split; auto.
Qed.

Create HintDb frame.

#[local] Hint Resolve Keeps_ret Keeps_get Keeps_lift Keeps_on_path
  Keeps_set_halfspace_n Keeps_set_halfspace_r Keeps_ned_col
  Keeps_airspeed_item Keeps_inHalfSpace Steps_increment_pointers : frame.

(** Walk down a chain of binds: every statement but the last keeps, the last
    may step. *)
Ltac frame :=
  repeat first
    [ apply Steps_increment_pointers
    | apply Steps_bind; [ solve [ auto with frame ] | intros ? ]
    | apply Steps_of_Keeps; solve [ auto with frame ]
    | progress cbv zeta ].

(** Whatever [line_manager] does, and however it ends, it leaves the caller's
    waypoint object, the standard output and [num_waypoints] alone, and the
    pointers either stay or all move up by one. *)
Lemma line_manager_frame (state : msg_state F) : Steps (line_manager state).
Proof.
  unfold line_manager, set_path_flag, set_path_airspeed, set_line_origin,
    set_line_direction, set_flag_path_changed.
  frame.
  match goal with |- Steps (if ?b then _ else _) => destruct b end; frame.
Qed.

(** **** C4 *)

(** C4. In straight-line mode with in-bounds pointers, [update] returns the
    path it has just written.  If the half-space test reports crossed, the
    path starts at waypoint[ptr_current], points along the unit vector from
    waypoint[ptr_current] to waypoint[ptr_next], carries the airspeed of
    waypoint[ptr_next] and is flagged changed; the three pointers then move
    up by one exactly when ptr_current < num_waypoints - 1, and otherwise
    stay while the need-new-waypoints flag is set.  If not crossed, the path
    starts at waypoint[ptr_previous], points along the unit vector from
    waypoint[ptr_previous] to waypoint[ptr_current], carries the airspeed of
    waypoint[ptr_current], is flagged unchanged, and the pointers stay.
    (The pointers are those in force when the geometry is computed, that is
    after a changed list has reset them; no distinctness of the waypoints is
    needed for these equations.) *)
Theorem update_straight_line_segment
    (radius : F) (state : msg_state F) (s : store F)
    (wprev wcur wnext : vec3 F) (acur anext : F) :
  type (waypoints s) = "straight_line"%string ->
  in_bounds (list_change_handled s) wprev wcur wnext acur anext ->
  exists s2 : store F,
    update radius state s = (inr (path (self s2)), s2) /\
    let m1 := self (list_change_handled s) in
    (crossed wprev wcur wnext state = true ->
       path (self s2) =
         Path.Build "line" anext wcur (unit_vector wcur wnext) true /\
       (ptr_current m1 < num_waypoints m1 - 1 ->
          pointers (self s2) =
            (ptr_previous m1 + 1, ptr_current m1 + 1, ptr_next m1 + 1) /\
          flag_need_new_waypoints (self s2) = flag_need_new_waypoints m1) /\
       (num_waypoints m1 - 1 <= ptr_current m1 ->
          pointers (self s2) = pointers m1 /\
          flag_need_new_waypoints (self s2) = true)) /\
    (crossed wprev wcur wnext state = false ->
       path (self s2) =
         Path.Build "line" acur wprev (unit_vector wprev wcur) false /\
       pointers (self s2) = pointers m1 /\
       flag_need_new_waypoints (self s2) = flag_need_new_waypoints m1).
Proof.
  intros Hty Hin.
  rewrite update_unfold. cbv zeta.
  rewrite list_change_handled_type, Hty. cbn [String.eqb Ascii.eqb Bool.eqb].
  rewrite (line_manager_in_bounds state Hin). cbv zeta.
  eexists. split; [ reflexivity | ].
  destruct (crossed wprev wcur wnext state).
  - split; [ intros _ | discriminate ].
    destruct (Z.ltb_spec (ptr_current (self (list_change_handled s)))
                (num_waypoints (self (list_change_handled s)) - 1)); cbn.
    + repeat split; try reflexivity; intros; lia.
    + repeat split; try reflexivity; intros; lia.
  - split; [ discriminate | intros _ ]. cbn. repeat split.
Qed.

(** **** C5 *)

(** C5. In straight-line mode with in-bounds pointers, the switching
    half-space [update] builds has normal normalize(q_prev + q_next), the
    normalised sum of the two segment directions, and reference point
    waypoint[ptr_current]; the path is flagged changed exactly when
    dot(position - reference, normal) >= 0, and a dot product of exactly
    zero counts as crossed. *)
Theorem update_straight_line_halfspace
    (radius : F) (state : msg_state F) (s : store F)
    (wprev wcur wnext : vec3 F) (acur anext : F) :
  type (waypoints s) = "straight_line"%string ->
  in_bounds (list_change_handled s) wprev wcur wnext acur anext ->
  exists (s2 : store F) (p : msg_path F),
    update radius state s = (inr p, s2) /\
    halfspace_n (self s2) =
      normalize (vadd (unit_vector wprev wcur) (unit_vector wcur wnext)) /\
    halfspace_r (self s2) = wcur /\
    let d := vdot (vsub (position state) (halfspace_r (self s2)))
                  (halfspace_n (self s2)) in
    flag_path_changed p = ge0 d /\
    (d = zero -> flag_path_changed p = true).
Proof.
  intros Hty Hin.
  rewrite update_unfold. cbv zeta.
  rewrite list_change_handled_type, Hty. cbn [String.eqb Ascii.eqb Bool.eqb].
  rewrite (line_manager_in_bounds state Hin). cbv zeta.
  do 2 eexists. split; [ reflexivity | ].
  assert (Hd : forall b : bool,
             crossed wprev wcur wnext state = b ->
             ge0 (vdot (vsub (position state) wcur)
                       (halfspace_normal wprev wcur wnext)) = b)
    by (intros b Hb; exact Hb).
  destruct (crossed wprev wcur wnext state) eqn:Hc.
  - specialize (Hd true eq_refl).
    destruct (ptr_current (self (list_change_handled s)) <?
              num_waypoints (self (list_change_handled s)) - 1); cbn;
      (split; [ reflexivity | split; [ reflexivity | ] ]);
      (split; [ symmetry; exact Hd | intros _; reflexivity ]).
  - specialize (Hd false eq_refl). cbn.
    split; [ reflexivity | split; [ reflexivity | ] ].
    split; [ symmetry; exact Hd | ].
    intros Hz. cbn [self halfspace_n halfspace_r] in Hz.
    rewrite Hz, ge0_zero in Hd. discriminate.
Qed.

(** **** C7, as the code has it *)

(** C7 (amended). When the type of the waypoint list is not "straight_line",
    [update] raises nothing: it returns [self.path] as it was before the call
    (a stale path).  For "fillet" and "dubins" it does nothing beyond the
    handling of the waypoints-changed flag; for any other tag it also prints
    "Error in Path Manager: Undefined waypoint type.". *)
Theorem update_other_type_returns_stale_path
    (radius : F) (state : msg_state F) (s : store F) :
  type (waypoints s) <> "straight_line"%string ->
  let s1 := list_change_handled s in
  let known := ((type (waypoints s) =? "fillet") ||
                (type (waypoints s) =? "dubins"))%string in
  update radius state s =
    (inr (path (self s)),
     Store (self s1) (waypoints s1)
           (if known then stdout s
            else stdout s ++
                 ["Error in Path Manager: Undefined waypoint type."%string])) /\
  path (self s1) = path (self s).
Proof.
  intros Hty. cbv zeta.
  rewrite update_unfold. cbv zeta.
  rewrite list_change_handled_type.
  destruct (String.eqb_spec (type (waypoints s)) "straight_line") as [E | _];
    [ contradiction | ].
  assert (Hp : path (self (list_change_handled s)) = path (self s) /\
               stdout (list_change_handled s) = stdout s).
  { unfold list_change_handled.
    destruct (flag_waypoints_changed (waypoints s)); split; reflexivity. }
  destruct Hp as [Hp Ho].
  destruct (type (waypoints s) =? "fillet")%string; cbn.
  - rewrite Hp, <- Ho. split; [ | reflexivity ].
    destruct (list_change_handled s); reflexivity.
  - destruct (type (waypoints s) =? "dubins")%string; cbn.
    + rewrite Hp, <- Ho. split; [ | reflexivity ].
      destruct (list_change_handled s); reflexivity.
    + rewrite Hp, <- Ho. split; reflexivity.
Qed.

(** *** The pointers from call to call *)

(** Over a call of [update], whatever the type and however the call ends,
    the pointers left by the handling of the flag either stay or all move up
    by one, the latter only from [ptr_current < num_waypoints - 1]. *)
Lemma update_steps (radius : F) (state : msg_state F) (s : store F) :
  let s1 := list_change_handled s in
  let s2 := snd (update radius state s) in
  waypoints s2 = waypoints s1 /\
  num_waypoints (self s2) = num_waypoints (self s1) /\
  (pointers (self s2) = pointers (self s1) \/
   (ptr_current (self s1) < num_waypoints (self s1) - 1 /\
    pointers (self s2) =
    (ptr_previous (self s1) + 1, ptr_current (self s1) + 1,
     ptr_next (self s1) + 1))).
Proof.
  cbv zeta. rewrite update_unfold. cbv zeta.
  set (s1 := list_change_handled s).
  destruct (type (waypoints s1) =? "straight_line")%string.
  - pose proof (line_manager_frame state s1) as Hf.
    destruct (line_manager state s1) as [[e | []] s2];
      destruct Hf as (Hw & _ & Hn & Hp); cbn in *; auto.
  - destruct (type (waypoints s1) =? "fillet")%string;
      [ | destruct (type (waypoints s1) =? "dubins")%string ];
      cbn; auto.
Qed.

(** On a list that has not changed: the pointers never decrease, they stay
    consecutive, and [ptr_current] stays at or below [num_waypoints - 1];
    [ptr_next], one above it, is bounded by [num_waypoints] only. *)
Lemma update_pointers_on_fixed_list
    (radius : F) (state : msg_state F) (s : store F) :
  flag_waypoints_changed (waypoints s) = false ->
  let m := self s in
  let m' := self (snd (update radius state s)) in
  ptr_previous m <= ptr_previous m' /\
  ptr_current m <= ptr_current m' /\
  ptr_next m <= ptr_next m' /\
  num_waypoints m' = num_waypoints m /\
  (ptr_current m = ptr_previous m + 1 -> ptr_next m = ptr_current m + 1 ->
   ptr_current m' = ptr_previous m' + 1 /\ ptr_next m' = ptr_current m' + 1) /\
  (ptr_current m <= num_waypoints m - 1 ->
   ptr_current m' <= num_waypoints m' - 1) /\
  (ptr_next m <= num_waypoints m -> ptr_next m = ptr_current m + 1 ->
   ptr_next m' <= num_waypoints m').
Proof.
  intros Hflag. cbv zeta.
  pose proof (update_steps radius state s) as Hs. cbv zeta in Hs.
  unfold list_change_handled in Hs. rewrite Hflag in Hs.
  destruct Hs as (_ & Hn & Hp). unfold pointers in Hp.
  destruct Hp as [Hp | [Hlt Hp]]; injection Hp as -> -> ->; rewrite Hn;
    repeat split; intros; lia.
Qed.

(** **** C10 *)

(** C10. When the waypoint object passed to [update] has its
    waypoints-changed flag set, then after the call, however it ends, that
    object (which the caller still holds) has the flag cleared and is
    otherwise as it was; the manager has taken over the object's
    num_waypoints and its pointers have been reset to (0, 1, 2), from where
    the same call may move them up once, to (1, 2, 3). *)
Theorem update_clears_callers_flag
    (radius : F) (state : msg_state F) (s : store F) :
  flag_waypoints_changed (waypoints s) = true ->
  let s2 := snd (update radius state s) in
  waypoints s2 =
    Waypoints.Build false (Waypoints.num_waypoints (waypoints s))
                    (type (waypoints s)) (ned (waypoints s))
                    (Waypoints.airspeed (waypoints s)) /\
  flag_waypoints_changed (waypoints s2) = false /\
  num_waypoints (self s2) = Waypoints.num_waypoints (waypoints s) /\
  (pointers (self s2) = (0, 1, 2) \/ pointers (self s2) = (1, 2, 3)).
Proof.
  intros Hflag. cbv zeta.
  rewrite update_unfold. cbv zeta.
  assert (Hs1 : waypoints (list_change_handled s) =
                Waypoints.Build false (Waypoints.num_waypoints (waypoints s))
                  (type (waypoints s)) (ned (waypoints s))
                  (Waypoints.airspeed (waypoints s)) /\
                num_waypoints (self (list_change_handled s)) =
                Waypoints.num_waypoints (waypoints s) /\
                pointers (self (list_change_handled s)) = (0, 1, 2)).
  { unfold list_change_handled. rewrite Hflag. repeat split. }
  destruct Hs1 as (Hw & Hn & Hp).
  set (s1 := list_change_handled s) in *.
  destruct (type (waypoints s1) =? "straight_line")%string.
  - pose proof (line_manager_frame state s1) as Hf. unfold steps in Hf.
    destruct (line_manager state s1) as [[e | []] s2]; cbn in *;
      destruct Hf as (Hw2 & _ & Hn2 & Hp2);
      rewrite Hw2, Hn2, Hw, Hn; cbn;
      (repeat split;
       destruct Hp2 as [Hp2 | [_ Hp2]]; rewrite Hp2;
       [ left; exact Hp
       | right; unfold pointers in Hp; injection Hp as -> -> ->; reflexivity ]).
  - destruct (type (waypoints s1) =? "fillet")%string;
      [ | destruct (type (waypoints s1) =? "dubins")%string ];
      cbn; rewrite ?Hw, ?Hn; repeat split; left; exact Hp.
Qed.

End Generic.
End PathManagerFacts.

(** ** binary64 arithmetic: the facts used below *)

Module Binary64Facts.
Import Binary64.

Lemma SF_sub_self (x : spec_float) :
  match x with S754_zero _ | S754_finite _ _ _ => True | _ => False end ->
  SF64sub x x = S754_zero false.
Proof.
  destruct x as [[|]|s| |s m e]; cbn; try tauto; intros _.
  unfold SF64sub, SFsub. rewrite Z.sub_diag. reflexivity.
Qed.

(** A finite number minus itself is +0. *)
Lemma sub_self (x : float) : finiteF x = true -> PrimFloat.sub x x = 0%float.
Proof.
  unfold finiteF. intros Hx. apply Prim2SF_inj. rewrite sub_spec.
  rewrite SF_sub_self; [ reflexivity | ].
  destruct (Prim2SF x); try discriminate; exact I.
Qed.

(** NaN is absorbing. *)
Lemma mul_nan_r (x : float) : PrimFloat.mul x nan = nan.
Proof.
  apply Prim2SF_inj. rewrite mul_spec. change (Prim2SF nan) with S754_nan.
  destruct (Prim2SF x); reflexivity.
Qed.

Lemma add_nan_r (x : float) : PrimFloat.add x nan = nan.
Proof.
  apply Prim2SF_inj. rewrite add_spec. change (Prim2SF nan) with S754_nan.
  destruct (Prim2SF x) as [[|]|[|]| |]; reflexivity.
Qed.

Lemma add_nan_l (x : float) : PrimFloat.add nan x = nan.
Proof.
  apply Prim2SF_inj. rewrite add_spec. change (Prim2SF nan) with S754_nan.
  reflexivity.
Qed.

Lemma div_nan_l (x : float) : PrimFloat.div nan x = nan.
Proof.
  apply Prim2SF_inj. rewrite div_spec. change (Prim2SF nan) with S754_nan.
  reflexivity.
Qed.

(** The zero vector over its norm: 0/0 in each component. *)
Lemma vsub_self (w : vec3 float) :
  finite3 w = true -> vsub w w = Vec3 0%float 0%float 0%float.
Proof.
  unfold finite3, vsub. intros Hw.
  apply andb_prop in Hw as [Hw Hz]. apply andb_prop in Hw as [Hx Hy].
  cbn. rewrite !sub_self by assumption. reflexivity.
Qed.

Lemma vadd_nan3_l (v : vec3 float) : vadd nan3 v = nan3.
Proof. unfold vadd, nan3. cbn. rewrite !add_nan_l. reflexivity. Qed.

Lemma vadd_nan3_r (v : vec3 float) : vadd v nan3 = nan3.
Proof. unfold vadd, nan3. cbn. rewrite !add_nan_r. reflexivity. Qed.

Lemma vdiv_nan3 (c : float) : vdiv nan3 c = nan3.
Proof. unfold vdiv, nan3. cbn. rewrite !div_nan_l. reflexivity. Qed.

Lemma vdot_nan3_r (v : vec3 float) : vdot v nan3 = nan.
Proof. unfold vdot, nan3. cbn. rewrite !mul_nan_r. reflexivity. Qed.

(** A non-finite operand makes a sum or a product non-finite. *)
Lemma nonfinite_add_l (x y : float) :
  finiteF x = false -> finiteF (PrimFloat.add x y) = false.
Proof.
  unfold finiteF. rewrite add_spec.
  destruct (Prim2SF x) as [ | [|] | | ]; try discriminate; intros _;
    destruct (Prim2SF y) as [ | [|] | | ]; reflexivity.
Qed.

Lemma nonfinite_add_r (x y : float) :
  finiteF y = false -> finiteF (PrimFloat.add x y) = false.
Proof.
  unfold finiteF. rewrite add_spec.
  destruct (Prim2SF y) as [ | [|] | | ]; try discriminate; intros _;
    destruct (Prim2SF x) as [ [|] | [|] | | ]; reflexivity.
Qed.

Lemma nonfinite_mul_r (x y : float) :
  finiteF y = false -> finiteF (PrimFloat.mul x y) = false.
Proof.
  unfold finiteF. rewrite mul_spec.
  destruct (Prim2SF y) as [ | [|] | | ]; try discriminate; intros _;
    destruct (Prim2SF x) as [ | | | ]; reflexivity.
Qed.

Lemma nonfinite_mul_l (x y : float) :
  finiteF x = false -> finiteF (PrimFloat.mul x y) = false.
Proof.
  unfold finiteF. rewrite mul_spec.
  destruct (Prim2SF x) as [ | [|] | | ]; try discriminate; intros _;
    destruct (Prim2SF y) as [ | | | ]; reflexivity.
Qed.

Lemma nonfinite_div_l (x y : float) :
  finiteF x = false -> finiteF (PrimFloat.div x y) = false.
Proof.
  unfold finiteF. rewrite div_spec.
  destruct (Prim2SF x) as [ | [|] | | ]; try discriminate; intros _;
    destruct (Prim2SF y) as [ | | | ]; reflexivity.
Qed.

(** Read the other way: a finite result has finite operands. *)
Lemma finite_add_inv (x y : float) :
  finiteF (PrimFloat.add x y) = true ->
  finiteF x = true /\ finiteF y = true.
Proof.
  intros Hxy.
  destruct (finiteF x) eqn:Ex;
    [ | rewrite (nonfinite_add_l x y Ex) in Hxy; discriminate ].
  destruct (finiteF y) eqn:Ey;
    [ | rewrite (nonfinite_add_r x y Ey) in Hxy; discriminate ].
  split; reflexivity.
Qed.

Lemma finite_mul_inv (x y : float) :
  finiteF (PrimFloat.mul x y) = true ->
  finiteF x = true /\ finiteF y = true.
Proof.
  intros Hxy.
  destruct (finiteF x) eqn:Ex;
    [ | rewrite (nonfinite_mul_l x y Ex) in Hxy; discriminate ].
  destruct (finiteF y) eqn:Ey;
    [ | rewrite (nonfinite_mul_r x y Ey) in Hxy; discriminate ].
  split; reflexivity.
Qed.

Lemma finite_div_inv (x y : float) :
  finiteF (PrimFloat.div x y) = true -> finiteF x = true.
Proof.
  intros Hxy.
  destruct (finiteF x) eqn:Ex;
    [ reflexivity | rewrite (nonfinite_div_l x y Ex) in Hxy; discriminate ].
Qed.

(** The exceptions of Python's square and reciprocal. *)
Lemma float_pow2_exception (x : float) (e : exn) :
  float_pow2 x = inl e -> e = OverflowError.
Proof.
  unfold float_pow2.
  destruct (finiteF x && negb (finiteF (PrimFloat.mul x x)));
    [ intros [= <-]; reflexivity | discriminate ].
Qed.

Lemma float_div_exception (x y : float) (e : exn) :
  float_div x y = inl e -> e = ZeroDivisionError.
Proof.
  unfold float_div.
  destruct (PrimFloat.eqb y 0); [ intros [= <-]; reflexivity | discriminate ].
Qed.

End Binary64Facts.

(** ** The path manager on binary64 *)

Module PathManagerFloat.
Import Path Waypoints PathManager PathManagerSpec PathManagerFacts.
Import Binary64 Binary64Facts PathManagerInputs.
Local Open Scope Z_scope.

(** With finite coordinates, the "unit vector" between two coincident
    waypoints is NaN in every component. *)
Lemma unit_vector_coincident (w : vec3 float) :
  finite3 w = true -> unit_vector w w = nan3.
Proof.
  intros Hw. unfold unit_vector. rewrite (vsub_self _ Hw). reflexivity.
Qed.

(** A NaN direction on either side makes the normal NaN and the half-space
    test fail. *)
Lemma crossed_nan_normal (wprev wcur wnext : vec3 float)
      (state : msg_state float) :
  unit_vector wprev wcur = nan3 \/ unit_vector wcur wnext = nan3 ->
  halfspace_normal wprev wcur wnext = nan3 /\
  crossed wprev wcur wnext state = false.
Proof.
  intros Hq.
  assert (Hn : halfspace_normal wprev wcur wnext = nan3).
  { unfold halfspace_normal, normalize.
    destruct Hq as [-> | ->]; rewrite ?vadd_nan3_l, ?vadd_nan3_r;
      apply vdiv_nan3. }
  split; [ exact Hn | ].
  unfold crossed. rewrite Hn, vdot_nan3_r. reflexivity.
Qed.

(** **** C3 *)

(** C3 (amended). In straight-line mode with in-bounds pointers and finite
    coordinates, coincident adjacent waypoints make [update] raise nothing:
    the call returns a path.  The half-space normal is NaN, the test is
    therefore not passed, the pointers stay, and the path returned is the
    segment from waypoint[ptr_previous], flagged unchanged; when it is
    waypoint[ptr_previous] and waypoint[ptr_current] that coincide, its
    direction is NaN in all three components. *)
Theorem update_coincident_waypoints
    (radius : float) (state : msg_state float) (s : store float)
    (wprev wcur wnext : vec3 float) (acur anext : float) :
  type (waypoints s) = "straight_line"%string ->
  in_bounds (list_change_handled s) wprev wcur wnext acur anext ->
  finite3 wprev = true -> finite3 wcur = true -> finite3 wnext = true ->
  wprev = wcur \/ wcur = wnext ->
  exists s2 : store float,
    update radius state s = (inr (path (self s2)), s2) /\
    halfspace_n (self s2) = nan3 /\
    path (self s2) =
      Path.Build "line" acur wprev (unit_vector wprev wcur) false /\
    pointers (self s2) = pointers (self (list_change_handled s)) /\
    (wprev = wcur -> line_direction (path (self s2)) = nan3).
Proof.
  intros Hty Hin Fp Fc Fn Hco.
  assert (Hq : unit_vector wprev wcur = nan3 \/ unit_vector wcur wnext = nan3).
  { destruct Hco as [E | E].
    - left. rewrite E. apply unit_vector_coincident. exact Fc.
    - right. rewrite E. apply unit_vector_coincident. exact Fn. }
  destruct (@crossed_nan_normal wprev wcur wnext state Hq) as [Hn Hc].
  rewrite update_unfold. cbv zeta.
  rewrite list_change_handled_type, Hty. cbn [String.eqb Ascii.eqb Bool.eqb].
  rewrite (line_manager_in_bounds state Hin). cbv zeta.
  rewrite Hc, Hn. eexists. split; [ reflexivity | ]. cbn.
  repeat split.
  intros E. rewrite E. apply unit_vector_coincident. exact Fc.
Qed.

Lemma update_coincident_waypoints_witness :
  exists s2 : store float,
    update 0%float (at_position 5 0 0) (start "straight_line" degenerate_route)
      = (inr (path (self s2)), s2) /\
    halfspace_n (self s2) = nan3 /\
    path (self s2) =
      Path.Build "line" 20%float (Vec3 0 0 0)%float
        (unit_vector (Vec3 0 0 0) (Vec3 0 0 0))%float false /\
    pointers (self s2) =
      pointers (self (list_change_handled
                        (start "straight_line" degenerate_route))) /\
    ((Vec3 0 0 0)%float = (Vec3 0 0 0)%float ->
     line_direction (path (self s2)) = nan3).
Proof.
  apply (@update_coincident_waypoints 0%float (at_position 5 0 0)
           (start "straight_line" degenerate_route)
           (Vec3 0 0 0)%float (Vec3 0 0 0)%float (Vec3 10 0 0)%float
           20%float 20%float).
  - reflexivity.
  - repeat split.
  - reflexivity.
  - reflexivity.
  - reflexivity.
  - left. reflexivity.
Defined.

(** C3, as stated, fails: on the waypoints (0,0,0), (0,0,0), (10,0,0) of the
    specification [update] raises nothing and returns a path whose direction
    is NaN. *)
Lemma update_degenerate_route_returns_nan :
  fst (update 0%float (at_position 5 0 0)
         (start "straight_line" degenerate_route))
  = inr (Path.Build "line" 20%float (Vec3 0 0 0)%float nan3 false).
Proof. vm_compute. reflexivity. Qed.

(** **** C2 *)

(** C2, at the input where the code departs from it.  On a list of three
    waypoints, a first [update] with the vehicle past the switching plane
    moves the pointers to (1, 2, 3): ptr_next equals num_waypoints and is
    outside 0 .. num_waypoints - 1.  The list holds no column 3, and the next
    [update] ends in [IndexError]. *)
Theorem update_pointer_overrun :
  let s1 := snd (update 0%float (at_position 15 0 0)
                   (start "straight_line" short_route)) in
  fst (update 0%float (at_position 15 0 0)
         (start "straight_line" short_route))
    = inr (Path.Build "line" 20%float (Vec3 10 0 0)%float
             (Vec3 1 0 0)%float true) /\
  num_waypoints (self s1) = 3 /\
  pointers (self s1) = (1, 2, 3) /\
  ~ ptr_next (self s1) <= num_waypoints (self s1) - 1 /\
  fst (update 0%float (at_position 15 0 0) s1) = inl IndexError.
Proof.
  vm_compute. repeat split; try reflexivity. intros Hle. apply Hle. reflexivity.
Qed.

(** **** C7 *)

(** C7, as stated, fails: with the type "fillet" (and likewise "dubins" or
    an unknown tag) [update] ends in no failure; it returns the path the
    manager held before the call. *)
Lemma update_fillet_returns_normally :
  fst (update 0%float (at_position 15 0 0) (start "fillet" short_route))
    = inr fresh_path /\
  fst (update 0%float (at_position 15 0 0) (start "dubins" short_route))
    = inr fresh_path /\
  update 0%float (at_position 15 0 0) (start "spline" short_route)
    = (inr fresh_path,
       Store (PathManager.Build fresh_path 0 1 2 false 3
                (Vec3 infinity infinity infinity)
                (Vec3 infinity infinity infinity) 1)
             (Waypoints.Build false 3 "spline" short_route
                [20; 20; 20]%float)
             ["Error in Path Manager: Undefined waypoint type."%string]).
Proof. vm_compute. repeat split. Qed.

Lemma update_other_type_returns_stale_path_witness :
  update 0%float (at_position 15 0 0) (start "fillet" short_route) =
    (inr fresh_path,
     Store (self (list_change_handled (start "fillet" short_route)))
           (waypoints (list_change_handled (start "fillet" short_route)))
           []) /\
  path (self (list_change_handled (start "fillet" short_route))) = fresh_path.
Proof.
  apply (@update_other_type_returns_stale_path float _ 0%float
           (at_position 15 0 0) (start "fillet" short_route)).
  discriminate.
Defined.

(** **** C4, C5 and C10 on the square route *)

(** The vehicle at (100, 0, 0), on the switching plane at the second
    waypoint: the test is passed and the pointers move to (1, 2, 3). *)
Lemma update_straight_line_segment_witness :
  exists s2 : store float,
    update 0%float (at_position 100 0 0) (start "straight_line" square_route)
      = (inr (path (self s2)), s2) /\
    path (self s2) =
      Path.Build "line" 20%float (Vec3 100 0 0)%float (Vec3 0 1 0)%float true /\
    pointers (self s2) = (1, 2, 3) /\
    flag_need_new_waypoints (self s2) = false.
Proof.
  destruct (@update_straight_line_segment float _ 0%float
              (at_position 100 0 0) (start "straight_line" square_route)
              (Vec3 0 0 0)%float (Vec3 100 0 0)%float (Vec3 100 100 0)%float
              20%float 20%float)
    as (s2 & Hrun & Hyes & _).
  - reflexivity.
  - repeat split.
  - exists s2. split; [ exact Hrun | ].
    destruct (Hyes eq_refl) as (Hpath & Hmove & _).
    destruct (Hmove eq_refl) as (Hptr & Hflag).
    repeat split; assumption.
Defined.

Lemma update_straight_line_halfspace_witness :
  exists (s2 : store float) (p : msg_path float),
    update 0%float (at_position 100 0 0) (start "straight_line" square_route)
      = (inr p, s2) /\
    halfspace_n (self s2) =
      normalize (vadd (Vec3 1 0 0) (Vec3 0 1 0))%float /\
    halfspace_r (self s2) = (Vec3 100 0 0)%float /\
    flag_path_changed p = true.
Proof.
  destruct (@update_straight_line_halfspace float _ 0%float
              (at_position 100 0 0) (start "straight_line" square_route)
              (Vec3 0 0 0)%float (Vec3 100 0 0)%float (Vec3 100 100 0)%float
              20%float 20%float)
    as (s2 & p & Hrun & Hn & Hr & Hd & Hzero).
  - reflexivity.
  - repeat split.
  - exists s2, p. repeat split; try assumption.
    apply Hzero. rewrite Hn, Hr. reflexivity.
Defined.

Lemma update_clears_callers_flag_witness :
  let s2 := snd (update 0%float (at_position 50 0 0)
                   (start "straight_line" square_route)) in
  flag_waypoints_changed (waypoints s2) = false /\
  ned (waypoints s2) = square_route /\
  num_waypoints (self s2) = 4.
Proof.
  destruct (@update_clears_callers_flag float _ 0%float (at_position 50 0 0)
              (start "straight_line" square_route) eq_refl)
    as (Hw & Hflag & Hnum & _).
  cbv zeta. split; [ exact Hflag | ].
  split; [ rewrite Hw; reflexivity | exact Hnum ].
Defined.

End PathManagerFloat.

(** ** Properties of the integrator *)

Module MavDynamicsFacts.
Import MavDynamics MavDynamicsSpec.

Section Generic.
Context {F : Type} `{Scalar F}.
Variable MAVp : MAV_parameters F.
Variable Quaternion2Euler : F * F * F * F -> F * F * F.
Variable Deltas : Type.
Variable calcForcesAndMoments : mav_dynamics F -> Deltas -> forces6 F.
Variable Wind : Type.

Local Open Scope scalar_scope.

Lemma call_derivatives_ok (x k : state13 F) (fm : forces6 F) (s : store F) :
  _derivatives MAVp x fm = inr k ->
  call_derivatives MAVp x fm s =
    (inr k, Store (self s) (derivative_calls s ++ [x])).
Proof.
  intros Hk. unfold call_derivatives, bind, modify, lift. cbn.
  rewrite Hk. reflexivity.
Qed.

Lemma call_derivatives_fail (x : state13 F) (fm : forces6 F) (s : store F)
      (e : exn) :
  _derivatives MAVp x fm = inl e ->
  call_derivatives MAVp x fm s =
    (inl e, Store (self s) (derivative_calls s ++ [x])).
Proof.
  intros Hk. unfold call_derivatives, bind, modify, lift. cbn.
  rewrite Hk. reflexivity.
Qed.

(** The Runge-Kutta block when the four evaluations raise nothing. *)
Lemma rk4_block_ok (fm : forces6 F) (s : store F) (k1 k2 k3 k4 : state13 F) :
  let x := _state (self s) in
  let time_step := ts_simulation (self s) in
  _derivatives MAVp x fm = inr k1 ->
  _derivatives MAVp (midpoint time_step x k1) fm = inr k2 ->
  _derivatives MAVp (midpoint time_step x k2) fm = inr k3 ->
  _derivatives MAVp (endpoint time_step x k3) fm = inr k4 ->
  rk4_block MAVp fm s =
    (inr tt,
     Store (Build time_step (rk4_combination time_step x k1 k2 k3 k4)
                  (msg_true_state (self s)))
           (derivative_calls s ++
            [x; midpoint time_step x k1; midpoint time_step x k2;
             endpoint time_step x k3])).
Proof.
  intros x time_step H1 H2 H3 H4.
  unfold rk4_block.
  erewrite bind_ok by reflexivity.
  erewrite bind_ok by reflexivity.
  erewrite bind_ok; [ | apply call_derivatives_ok; exact H1 ].
  erewrite bind_ok by reflexivity.
  erewrite bind_ok; [ | apply call_derivatives_ok; exact H2 ].
  erewrite bind_ok by reflexivity.
  erewrite bind_ok; [ | apply call_derivatives_ok; exact H3 ].
  erewrite bind_ok by reflexivity.
  erewrite bind_ok; [ | apply call_derivatives_ok; exact H4 ].
  erewrite bind_ok by reflexivity.
  unfold set_state, modify. cbn.
  rewrite <- !app_assoc. reflexivity.
Qed.

(** The normalisation block when the four squares raise nothing. *)
Lemma normalize_block_ok (s : store F) (a0 a1 a2 a3 : F) :
  let x := _state (self s) in
  py_pow2 (item6 x) = inr a0 ->
  py_pow2 (item7 x) = inr a1 ->
  py_pow2 (item8 x) = inr a2 ->
  py_pow2 (item9 x) = inr a3 ->
  normalize_block s =
    (inr tt,
     Store (Build (ts_simulation (self s))
                  (quaternion_over x (sqrt (a0 + a1 + a2 + a3)))
                  (msg_true_state (self s)))
           (derivative_calls s)).
Proof.
  intros x H0 H1 H2 H3. unfold normalize_block.
  erewrite bind_ok by reflexivity. cbv zeta.
  change (_state (self s)) with x.
  rewrite H0, H1, H2, H3.
  reflexivity.
Qed.

(** When a square raises, the block ends there, before any write. *)
Lemma normalize_block_cases (s : store F) :
  let x := _state (self s) in
  (exists a0 a1 a2 a3 : F,
      py_pow2 (item6 x) = inr a0 /\ py_pow2 (item7 x) = inr a1 /\
      py_pow2 (item8 x) = inr a2 /\ py_pow2 (item9 x) = inr a3) \/
  (exists e : exn,
      normalize_block s = (inl e, s) /\
      (py_pow2 (item6 x) = inl e \/ py_pow2 (item7 x) = inl e \/
       py_pow2 (item8 x) = inl e \/ py_pow2 (item9 x) = inl e)).
Proof.
  intros x.
  destruct (py_pow2 (item6 x)) as [e | a0] eqn:H0;
    [ | destruct (py_pow2 (item7 x)) as [e | a1] eqn:H1;
        [ | destruct (py_pow2 (item8 x)) as [e | a2] eqn:H2;
            [ | destruct (py_pow2 (item9 x)) as [e | a3] eqn:H3 ] ] ].
  5: { left. exists a0, a1, a2, a3. repeat split. }
  all: right; exists e; (split; [ | tauto ]);
    unfold normalize_block;
    erewrite bind_ok by reflexivity; cbv zeta;
    change (_state (self s)) with x;
    unfold bind, lift; rewrite H0; try rewrite H1; try rewrite H2;
    try rewrite H3; reflexivity.
Qed.

Lemma after_rk4_ok (wind : Wind) (s : store F) (a0 a1 a2 a3 : F) :
  let x := _state (self s) in
  py_pow2 (item6 x) = inr a0 ->
  py_pow2 (item7 x) = inr a1 ->
  py_pow2 (item8 x) = inr a2 ->
  py_pow2 (item9 x) = inr a3 ->
  after_rk4 Quaternion2Euler wind s =
    (inr tt,
     let x' := quaternion_over x (sqrt (a0 + a1 + a2 + a3)) in
     Store (Build (ts_simulation (self s)) x' (true_state_of Quaternion2Euler x'))
           (derivative_calls s)).
Proof.
  intros x H0 H1 H2 H3. unfold after_rk4.
  erewrite bind_ok by (apply normalize_block_ok; eassumption).
  unfold updateVelocityData, _update_msg_true_state, get_state,
    set_msg_true_state, true_state_of, bind, ret, get, modify. cbn.
  destruct (Quaternion2Euler _) as [[phi theta] psi]. reflexivity.
Qed.

(** What follows the Runge-Kutta block (lines 56-71) calls [_derivatives] no
    more and writes, in [_state], the quaternion only; this however it ends. *)
Lemma after_rk4_frame (wind : Wind) (s : store F) :
  let s' := snd (after_rk4 Quaternion2Euler wind s) in
  derivative_calls s' = derivative_calls s /\
  ts_simulation (self s') = ts_simulation (self s) /\
  same_outside_quaternion (_state (self s')) (_state (self s)).
Proof.
  destruct (normalize_block_cases s)
    as [(a0 & a1 & a2 & a3 & H0 & H1 & H2 & H3) | (e & He & _)].
  - rewrite (after_rk4_ok wind s H0 H1 H2 H3). cbn. repeat split.
  - unfold after_rk4. erewrite bind_fail by exact He. cbn. repeat split.
Qed.

Lemma update_state_unfold (deltas : Deltas) (wind : Wind) (s : store F) :
  update_state MAVp Quaternion2Euler calcForcesAndMoments deltas wind s =
  bind (rk4_block MAVp (calcForcesAndMoments (self s) deltas))
       (fun _ => after_rk4 Quaternion2Euler wind) s.
Proof. reflexivity. Qed.

(** **** C6 *)

(** C6. In an integration step whose four evaluations of [_derivatives] raise
    no Python exception, [update_state] evaluates [_derivatives] exactly four
    times: at the current state x (giving k1), at the two midpoint estimates
    x + Ts/2 k1 (giving k2) and x + Ts/2 k2 (giving k3), and at the endpoint
    estimate x + Ts k3 (giving k4); and it writes x + Ts/6 (k1 + 2 k2 + 2 k3
    + k4) into the state.  The rest of the step runs from there: it calls
    [_derivatives] no more and changes, in the state, the quaternion only. *)
Theorem update_state_rk4
    (deltas : Deltas) (wind : Wind) (s : store F) (k1 k2 k3 k4 : state13 F) :
  let x := _state (self s) in
  let time_step := ts_simulation (self s) in
  let forces_moments := calcForcesAndMoments (self s) deltas in
  _derivatives MAVp x forces_moments = inr k1 ->
  _derivatives MAVp (midpoint time_step x k1) forces_moments = inr k2 ->
  _derivatives MAVp (midpoint time_step x k2) forces_moments = inr k3 ->
  _derivatives MAVp (endpoint time_step x k3) forces_moments = inr k4 ->
  exists s1 : store F,
    rk4_block MAVp forces_moments s = (inr tt, s1) /\
    derivative_calls s1 =
      derivative_calls s ++
      [x; midpoint time_step x k1; midpoint time_step x k2;
       endpoint time_step x k3] /\
    _state (self s1) = rk4_combination time_step x k1 k2 k3 k4 /\
    let run :=
      update_state MAVp Quaternion2Euler calcForcesAndMoments deltas wind s in
    run = after_rk4 Quaternion2Euler wind s1 /\
    derivative_calls (snd run) = derivative_calls s1 /\
    same_outside_quaternion (_state (self (snd run)))
                            (rk4_combination time_step x k1 k2 k3 k4).
Proof.
  intros x time_step forces_moments H1 H2 H3 H4.
  pose proof (rk4_block_ok forces_moments s H1 H2 H3 H4) as Hrk.
  cbv zeta in Hrk. fold x time_step in Hrk.
  eexists. split; [ exact Hrk | ].
  split; [ reflexivity | ]. split; [ reflexivity | ].
  cbv zeta. rewrite update_state_unfold. fold forces_moments.
  erewrite bind_ok by exact Hrk.
  split; [ reflexivity | ].
  match goal with
  | |- context [ snd (after_rk4 Quaternion2Euler wind ?s1) ] =>
      pose proof (after_rk4_frame wind s1) as Hf
  end.
  cbv zeta in Hf. destruct Hf as (Hcalls & _ & Hsame).
  split; [ exact Hcalls | exact Hsame ].
Qed.

(** *** The outcomes of the step *)

(** The components of a derivative that the forces and moments enter. *)
Lemma derivatives_shape (x k : state13 F) (fm : forces6 F) :
  _derivatives MAVp x fm = inr k ->
  exists inv_mass inv_Jy p_2 r_2 : F,
    let u := item3 x in let v := item4 x in let w := item5 x in
    let p := item10 x in let q := item11 x in let r := item12 x in
    item3 k = r * v - q * w + inv_mass * fm_item0 fm /\
    item4 k = p * w - r * u + inv_mass * fm_item1 fm /\
    item5 k = q * u - p * v + inv_mass * fm_item2 fm /\
    item10 k = gamma1 MAVp * p * q - gamma2 MAVp * q * r
               + gamma3 MAVp * fm_item3 fm + gamma4 MAVp * fm_item5 fm /\
    item11 k = gamma5 MAVp * p * r - gamma6 MAVp * (p_2 - r_2)
               + inv_Jy * fm_item4 fm /\
    item12 k = gamma7 MAVp * p * q - gamma1 MAVp * q * r
               + gamma4 MAVp * fm_item3 fm + gamma8 MAVp * fm_item5 fm.
Proof.
  unfold _derivatives, ebind.
  destruct (py_pow2 (item7 x)); [ discriminate | ].
  destruct (py_pow2 (item6 x)); [ discriminate | ].
  destruct (py_pow2 (item8 x)); [ discriminate | ].
  destruct (py_pow2 (item9 x)); [ discriminate | ].
  destruct (py_div one (mass MAVp)) as [ | inv_mass ]; [ discriminate | ].
  destruct (py_pow2 (item10 x)) as [ | p_2 ]; [ discriminate | ].
  destruct (py_pow2 (item12 x)) as [ | r_2 ]; [ discriminate | ].
  destruct (py_div one (Jy MAVp)) as [ | inv_Jy ]; [ discriminate | ].
  intros [= <-]. exists inv_mass, inv_Jy, p_2, r_2. cbn. repeat split.
Qed.

(** An exception of [_derivatives] is one of a square or of a reciprocal. *)
Lemma derivatives_exception (x : state13 F) (fm : forces6 F) (e : exn) :
  _derivatives MAVp x fm = inl e ->
  (exists y : F, py_pow2 y = inl e) \/ (exists y : F, py_div one y = inl e).
Proof.
  unfold _derivatives, ebind.
  destruct (py_pow2 (item7 x)) eqn:E1; [ intros [= <-]; eauto | ].
  destruct (py_pow2 (item6 x)) eqn:E2; [ intros [= <-]; eauto | ].
  destruct (py_pow2 (item8 x)) eqn:E3; [ intros [= <-]; eauto | ].
  destruct (py_pow2 (item9 x)) eqn:E4; [ intros [= <-]; eauto | ].
  destruct (py_div one (mass MAVp)) eqn:E5; [ intros [= <-]; eauto | ].
  destruct (py_pow2 (item10 x)) eqn:E6; [ intros [= <-]; eauto | ].
  destruct (py_pow2 (item12 x)) eqn:E7; [ intros [= <-]; eauto | ].
  destruct (py_div one (Jy MAVp)) eqn:E8; [ intros [= <-]; eauto | ].
  discriminate.
Qed.

(** The Runge-Kutta block either makes its four evaluations and writes the
    combination, or ends in the exception of an evaluation, the state not
    yet written. *)
Lemma rk4_block_cases (fm : forces6 F) (s : store F) :
  let x := _state (self s) in
  let time_step := ts_simulation (self s) in
  (exists k1 k2 k3 k4 : state13 F,
      _derivatives MAVp x fm = inr k1 /\
      _derivatives MAVp (midpoint time_step x k1) fm = inr k2 /\
      _derivatives MAVp (midpoint time_step x k2) fm = inr k3 /\
      _derivatives MAVp (endpoint time_step x k3) fm = inr k4) \/
  (exists (e : exn) (y : state13 F) (s' : store F),
      _derivatives MAVp y fm = inl e /\
      rk4_block MAVp fm s = (inl e, s') /\
      self s' = self s).
Proof.
  intros x time_step.
  destruct (_derivatives MAVp x fm) as [e | k1] eqn:H1.
  { right. exists e, x. eexists. split; [ exact H1 | ].
    unfold rk4_block.
    erewrite bind_ok by reflexivity. erewrite bind_ok by reflexivity.
    erewrite bind_fail; [ | apply call_derivatives_fail; exact H1 ].
    split; reflexivity. }
  destruct (_derivatives MAVp (midpoint time_step x k1) fm)
    as [e | k2] eqn:H2.
  { right. exists e, (midpoint time_step x k1). eexists.
    split; [ exact H2 | ].
    unfold rk4_block.
    erewrite bind_ok by reflexivity. erewrite bind_ok by reflexivity.
    erewrite bind_ok; [ | apply call_derivatives_ok; exact H1 ].
    erewrite bind_ok by reflexivity.
    erewrite bind_fail; [ | apply call_derivatives_fail; exact H2 ].
    split; reflexivity. }
  destruct (_derivatives MAVp (midpoint time_step x k2) fm)
    as [e | k3] eqn:H3.
  { right. exists e, (midpoint time_step x k2). eexists.
    split; [ exact H3 | ].
    unfold rk4_block.
    erewrite bind_ok by reflexivity. erewrite bind_ok by reflexivity.
    erewrite bind_ok; [ | apply call_derivatives_ok; exact H1 ].
    erewrite bind_ok by reflexivity.
    erewrite bind_ok; [ | apply call_derivatives_ok; exact H2 ].
    erewrite bind_ok by reflexivity.
    erewrite bind_fail; [ | apply call_derivatives_fail; exact H3 ].
    split; reflexivity. }
  destruct (_derivatives MAVp (endpoint time_step x k3) fm)
    as [e | k4] eqn:H4.
  { right. exists e, (endpoint time_step x k3). eexists.
    split; [ exact H4 | ].
    unfold rk4_block.
    erewrite bind_ok by reflexivity. erewrite bind_ok by reflexivity.
    erewrite bind_ok; [ | apply call_derivatives_ok; exact H1 ].
    erewrite bind_ok by reflexivity.
    erewrite bind_ok; [ | apply call_derivatives_ok; exact H2 ].
    erewrite bind_ok by reflexivity.
    erewrite bind_ok; [ | apply call_derivatives_ok; exact H3 ].
    erewrite bind_ok by reflexivity.
    erewrite bind_fail; [ | apply call_derivatives_fail; exact H4 ].
    split; reflexivity. }
  left. exists k1, k2, k3, k4. repeat split; assumption.
Qed.

(** The components of the combination. *)
Lemma rk4_combination_items (time_step : F) (x k1 k2 k3 k4 : state13 F) :
  let c := rk4_combination time_step x k1 k2 k3 k4 in
  let w := time_step / six in
  item0 c = item0 x + w * (item0 k1 + two * item0 k2 + two * item0 k3
                   + item0 k4) /\
  item1 c = item1 x + w * (item1 k1 + two * item1 k2 + two * item1 k3
                   + item1 k4) /\
  item2 c = item2 x + w * (item2 k1 + two * item2 k2 + two * item2 k3
                   + item2 k4) /\
  item3 c = item3 x + w * (item3 k1 + two * item3 k2 + two * item3 k3
                   + item3 k4) /\
  item4 c = item4 x + w * (item4 k1 + two * item4 k2 + two * item4 k3
                   + item4 k4) /\
  item5 c = item5 x + w * (item5 k1 + two * item5 k2 + two * item5 k3
                   + item5 k4) /\
  item6 c = item6 x + w * (item6 k1 + two * item6 k2 + two * item6 k3
                   + item6 k4) /\
  item7 c = item7 x + w * (item7 k1 + two * item7 k2 + two * item7 k3
                   + item7 k4) /\
  item8 c = item8 x + w * (item8 k1 + two * item8 k2 + two * item8 k3
                   + item8 k4) /\
  item9 c = item9 x + w * (item9 k1 + two * item9 k2 + two * item9 k3
                   + item9 k4) /\
  item10 c = item10 x + w * (item10 k1 + two * item10 k2 + two * item10 k3
                   + item10 k4) /\
  item11 c = item11 x + w * (item11 k1 + two * item11 k2 + two * item11 k3
                   + item11 k4) /\
  item12 c = item12 x + w * (item12 k1 + two * item12 k2 + two * item12 k3
                   + item12 k4).
Proof. cbv zeta. repeat split. Qed.

End Generic.
End MavDynamicsFacts.

(** ** The integrator on binary64 *)

Module MavDynamicsFloat.
Import MavDynamics MavDynamicsSpec MavDynamicsFacts Binary64 Binary64Facts.

(** A finite component of the combination x + w (k1 + 2 k2 + 2 k3 + k4) has
    the four rates finite. *)
Lemma combination_finite_inv (a w k1 k2 k3 k4 : float) :
  finiteF (add a (mul w (add (add (add k1 (mul two k2)) (mul two k3)) k4)))
    = true ->
  finiteF k1 = true /\ finiteF k2 = true /\
  finiteF k3 = true /\ finiteF k4 = true.
Proof.
  intros Hc.
  apply finite_add_inv in Hc as [_ Hc].
  apply finite_mul_inv in Hc as [_ Hc].
  apply finite_add_inv in Hc as [Hc H4].
  apply finite_add_inv in Hc as [Hc H3].
  apply finite_add_inv in Hc as [H1 H2].
  apply finite_mul_inv in H2 as [_ H2].
  apply finite_mul_inv in H3 as [_ H3].
  repeat split; assumption.
Qed.

Lemma finite13_intro (x : state13 float) :
  finiteF (item0 x) = true -> finiteF (item1 x) = true ->
  finiteF (item2 x) = true -> finiteF (item3 x) = true ->
  finiteF (item4 x) = true -> finiteF (item5 x) = true ->
  finiteF (item6 x) = true -> finiteF (item7 x) = true ->
  finiteF (item8 x) = true -> finiteF (item9 x) = true ->
  finiteF (item10 x) = true -> finiteF (item11 x) = true ->
  finiteF (item12 x) = true ->
  finite13 x = true.
Proof.
  intros H0 H1 H2 H3 H4 H5 H6 H7 H8 H9 H10 H11 H12. unfold finite13.
  rewrite H0, H1, H2, H3, H4, H5, H6, H7, H8, H9, H10, H11, H12.
  reflexivity.
Qed.

Lemma finite13_elim (x : state13 float) :
  finite13 x = true ->
  finiteF (item0 x) = true /\ finiteF (item1 x) = true /\
  finiteF (item2 x) = true /\ finiteF (item3 x) = true /\
  finiteF (item4 x) = true /\ finiteF (item5 x) = true /\
  finiteF (item6 x) = true /\ finiteF (item7 x) = true /\
  finiteF (item8 x) = true /\ finiteF (item9 x) = true /\
  finiteF (item10 x) = true /\ finiteF (item11 x) = true /\
  finiteF (item12 x) = true.
Proof.
  unfold finite13. intros Hx.
  repeat (apply andb_prop in Hx; destruct Hx as [Hx ?]).
  repeat split; assumption.
Qed.

(** A finite combination has four finite rates. *)
Lemma rk4_combination_finite_inv (time_step : float)
      (x k1 k2 k3 k4 : state13 float) :
  finite13 (rk4_combination time_step x k1 k2 k3 k4) = true ->
  finite13 k1 = true /\ finite13 k2 = true /\
  finite13 k3 = true /\ finite13 k4 = true.
Proof.
  intros Hc. apply finite13_elim in Hc.
  destruct (rk4_combination_items time_step x k1 k2 k3 k4)
    as (C0 & C1 & C2 & C3 & C4 & C5 & C6 & C7 & C8 & C9 & C10 & C11 & C12).
  rewrite C0, C1, C2, C3, C4, C5, C6, C7, C8, C9, C10, C11, C12 in Hc.
  destruct Hc
    as (H0 & H1 & H2 & H3 & H4 & H5 & H6 & H7 & H8 & H9 & H10 & H11 & H12).
  apply combination_finite_inv in H0 as (? & ? & ? & ?).
  apply combination_finite_inv in H1 as (? & ? & ? & ?).
  apply combination_finite_inv in H2 as (? & ? & ? & ?).
  apply combination_finite_inv in H3 as (? & ? & ? & ?).
  apply combination_finite_inv in H4 as (? & ? & ? & ?).
  apply combination_finite_inv in H5 as (? & ? & ? & ?).
  apply combination_finite_inv in H6 as (? & ? & ? & ?).
  apply combination_finite_inv in H7 as (? & ? & ? & ?).
  apply combination_finite_inv in H8 as (? & ? & ? & ?).
  apply combination_finite_inv in H9 as (? & ? & ? & ?).
  apply combination_finite_inv in H10 as (? & ? & ? & ?).
  apply combination_finite_inv in H11 as (? & ? & ? & ?).
  apply combination_finite_inv in H12 as (? & ? & ? & ?).
  repeat split; apply finite13_intro; assumption.
Qed.

(** A finite state after the division of the quaternion was finite before
    it. *)
Lemma quaternion_over_finite_inv (x : state13 float) (normE : float) :
  finite13 (quaternion_over x normE) = true -> finite13 x = true.
Proof.
  intros Hq. apply finite13_elim in Hq. cbn in Hq.
  destruct Hq
    as (H0 & H1 & H2 & H3 & H4 & H5 & H6 & H7 & H8 & H9 & H10 & H11 & H12).
  apply finite_div_inv in H6, H7, H8, H9.
  apply finite13_intro; assumption.
Qed.

Section Float.
Variable MAVp : MAV_parameters float.
Variable Quaternion2Euler : float * float * float * float
                            -> float * float * float.
Variable Deltas : Type.
Variable calcForcesAndMoments : mav_dynamics float -> Deltas -> forces6 float.
Variable Wind : Type.

(** A finite derivative comes from finite forces and moments. *)
Lemma derivatives_finite_inv (x k : state13 float) (fm : forces6 float) :
  _derivatives MAVp x fm = inr k ->
  finite13 k = true ->
  finite6 fm = true.
Proof.
  intros Hk Hf.
  destruct (@derivatives_shape _ _ MAVp x k fm Hk)
    as (inv_mass & inv_Jy & p_2 & r_2 & E3 & E4 & E5 & E10 & E11 & E12).
  apply finite13_elim in Hf.
  destruct Hf as (_ & _ & _ & H3 & H4 & H5 & _ & _ & _ & _ & H10 & H11 & _).
  rewrite E3 in H3. rewrite E4 in H4. rewrite E5 in H5.
  rewrite E10 in H10. rewrite E11 in H11.
  apply finite_add_inv in H3 as [_ H3]. apply finite_mul_inv in H3 as [_ H3].
  apply finite_add_inv in H4 as [_ H4]. apply finite_mul_inv in H4 as [_ H4].
  apply finite_add_inv in H5 as [_ H5]. apply finite_mul_inv in H5 as [_ H5].
  apply finite_add_inv in H10 as [H10 Hn].
  apply finite_mul_inv in Hn as [_ Hn].
  apply finite_add_inv in H10 as [_ Hl].
  apply finite_mul_inv in Hl as [_ Hl].
  apply finite_add_inv in H11 as [_ Hm].
  apply finite_mul_inv in Hm as [_ Hm].
  unfold finite6. rewrite H3, H4, H5, Hl, Hm, Hn. reflexivity.
Qed.

Lemma derivatives_exception_float (x : state13 float) (fm : forces6 float)
      (e : exn) :
  _derivatives MAVp x fm = inl e ->
  e = OverflowError \/ e = ZeroDivisionError.
Proof.
  intros He.
  destruct (@derivatives_exception _ _ MAVp x fm e He) as [[y Hy] | [y Hy]].
  - left. exact (@float_pow2_exception y e Hy).
  - right. exact (@float_div_exception _ y e Hy).
Qed.

(** **** C8, as the code has it *)

(** C8 (amended). [update_state] makes no finiteness check and has no
    NumericalInstability failure.  In a step in which a component of the
    force/moment vector is non-finite (NaN or an infinity), or in which one
    of the four state derivatives computed has a non-finite component,
    either the step completes and the state it has written has a non-finite
    component, or one of Python's arithmetic exceptions ends it:
    [OverflowError], from a square that overflows, or [ZeroDivisionError],
    from a zero mass or pitch inertia. *)
Theorem update_state_non_finite
    (deltas : Deltas) (wind : Wind) (s : store float) :
  let forces_moments := calcForcesAndMoments (self s) deltas in
  let x := _state (self s) in
  let time_step := ts_simulation (self s) in
  (finite6 forces_moments = false \/
   exists k1 k2 k3 k4 : state13 float,
     _derivatives MAVp x forces_moments = inr k1 /\
     _derivatives MAVp (midpoint time_step x k1) forces_moments = inr k2 /\
     _derivatives MAVp (midpoint time_step x k2) forces_moments = inr k3 /\
     _derivatives MAVp (endpoint time_step x k3) forces_moments = inr k4 /\
     finite13 k1 && finite13 k2 && finite13 k3 && finite13 k4 = false) ->
  let run :=
    update_state MAVp Quaternion2Euler calcForcesAndMoments deltas wind s in
  (fst run = inr tt /\ finite13 (_state (self (snd run))) = false) \/
  fst run = inl OverflowError \/
  fst run = inl ZeroDivisionError.
Proof.
  intros fm x time_step Hnf. cbv zeta. rewrite update_state_unfold.
  fold fm.
  destruct (@rk4_block_cases _ _ MAVp fm s)
    as [(k1 & k2 & k3 & k4 & H1 & H2 & H3 & H4)
       | (e & y & s' & Hy & Hrk & _)].
  - fold x time_step in H1, H2, H3, H4.
    assert (Hk : finite13 k1 && finite13 k2 && finite13 k3 && finite13 k4
                 = false).
    { destruct Hnf as [Hfm | (j1 & j2 & j3 & j4 & J1 & J2 & J3 & J4 & Hj)].
      - destruct (finite13 k1) eqn:F1; [ | reflexivity ].
        rewrite (@derivatives_finite_inv _ _ _ H1 F1) in Hfm. discriminate.
      - rewrite H1 in J1. injection J1 as <-.
        rewrite H2 in J2. injection J2 as <-.
        rewrite H3 in J3. injection J3 as <-.
        rewrite H4 in J4. injection J4 as <-.
        exact Hj. }
    erewrite bind_ok by (eapply rk4_block_ok; eassumption).
    match goal with |- context [ after_rk4 _ wind ?t ] => set (s1 := t) end.
    destruct (normalize_block_cases Quaternion2Euler s1)
      as [(a0 & a1 & a2 & a3 & P0 & P1 & P2 & P3) | (e & He & Hsq)].
    + left. erewrite after_rk4_ok by eassumption.
      split; [ reflexivity | ]. cbv zeta. cbn [snd self _state].
      match goal with |- finite13 ?t = false =>
        destruct (finite13 t) eqn:Hfin; [ exfalso | reflexivity ] end.
      apply quaternion_over_finite_inv in Hfin. unfold s1 in Hfin.
      cbn [self _state] in Hfin.
      apply rk4_combination_finite_inv in Hfin as (F1 & F2 & F3 & F4).
      rewrite F1, F2, F3, F4 in Hk. discriminate.
    + right. left. unfold after_rk4.
      erewrite bind_fail by exact He. cbn.
      assert (e = OverflowError) as ->; [ | reflexivity ].
      destruct Hsq as [Hq | [Hq | [Hq | Hq]]];
        exact (@float_pow2_exception _ _ Hq).
  - right. erewrite bind_fail by exact Hrk. cbn.
    destruct (@derivatives_exception_float _ _ _ Hy) as [-> | ->];
      [ left | right ]; reflexivity.
Qed.

End Float.
End MavDynamicsFloat.

(** ** The steps on binary64 *)

Module FloatRun.
Import MavDynamics MavDynamicsSpec MavDynamicsFacts MavDynamicsFloat.
Import Binary64 Binary64Facts FloatInputs.
Local Open Scope float_scope.

(** **** C1 *)

(** C1, at the input where the code departs from it.  After a step whose
    inputs and integrated state are finite and whose integrated quaternion
    is not zero, the quaternion stored is to have norm 1 within 1e-9.  Lines
    56-65 divide by the computed norm without scaling the components first.
    From the state with quaternion (2^-700, 0, 0, 0) and without forces, the
    inputs are finite, the integrated state is finite and its quaternion
    (2^-700, 0, 0, 0) is not zero; the squares underflow, the computed norm
    is 0, the step completes, and the quaternion stored is
    (inf, NaN, NaN, NaN): its norm is not within 1e-9 of 1. *)
Theorem update_state_tiny_quaternion :
  finite6 no_forces = true /\
  finite13 tiny_quaternion = true /\
  (exists s1 : store float,
      rk4_block parameters no_forces (vehicle tiny_quaternion) = (inr tt, s1) /\
      finite13 (_state (self s1)) = true /\
      item6 (_state (self s1)) = 0x1p-700%float) /\
  fst (step no_forces (vehicle tiny_quaternion)) = inr tt /\
  _state (self (snd (step no_forces (vehicle tiny_quaternion)))) =
    State13 0 0 (-100) 25 0 0 infinity nan nan nan 0 0 0 /\
  unit_within_tolerance
    (_state (self (snd (step no_forces (vehicle tiny_quaternion))))) = false.
Proof.
  split; [ reflexivity | ]. split; [ reflexivity | ].
  split.
  { exists (snd (rk4_block parameters no_forces (vehicle tiny_quaternion))).
    vm_compute. repeat split. }
  vm_compute. repeat split.
Qed.

(** The same step from level flight keeps the quaternion at norm 1. *)
Example update_state_level_flight :
  step no_forces (vehicle level_flight) =
    (inr tt,
     Store (Build 0.015625
              (State13 0.390625 0 (-100) 25 0 0 1 0 0 0 0 0 0)
              (StateMsg.Build 0.390625 0 100 0 0 0 0 0 0))
           [level_flight;
            State13 0.1953125 0 (-100) 25 0 0 1 0 0 0 0 0 0;
            State13 0.1953125 0 (-100) 25 0 0 1 0 0 0 0 0 0;
            State13 0.390625 0 (-100) 25 0 0 1 0 0 0 0 0 0]).
Proof. vm_compute. reflexivity. Qed.

(** **** C8 *)

(** C8, as stated, fails: with an infinite force along x, and everything
    else as in level flight, [update_state] raises nothing; it completes and
    leaves NaN in the position and the velocity. *)
Lemma update_state_infinite_force :
  step (Forces6 infinity 0 0 0 0 0) (vehicle level_flight) =
    (inr tt,
     Store (Build 0.015625
              (State13 nan nan nan nan nan nan 1 0 0 0 0 0 0)
              (StateMsg.Build nan nan nan 0 0 0 0 0 0))
           [level_flight;
            State13 0.1953125 0 (-100) infinity 0 0 1 0 0 0 0 0 0;
            State13 infinity nan nan infinity nan nan 1 0 0 0 0 0 0;
            State13 nan nan nan nan nan nan 1 0 0 0 0 0 0]).
Proof. vm_compute. reflexivity. Qed.

Lemma update_state_non_finite_witness :
  (fst (step (Forces6 infinity 0 0 0 0 0) (vehicle level_flight)) = inr tt /\
   finite13 (_state (self (snd (step (Forces6 infinity 0 0 0 0 0)
                                  (vehicle level_flight))))) = false) \/
  fst (step (Forces6 infinity 0 0 0 0 0) (vehicle level_flight))
    = inl OverflowError \/
  fst (step (Forces6 infinity 0 0 0 0 0) (vehicle level_flight))
    = inl ZeroDivisionError.
Proof.
  apply (@update_state_non_finite parameters no_euler (forces6 float)
           given_forces unit (Forces6 infinity 0 0 0 0 0) tt
           (vehicle level_flight)).
  left. reflexivity.
Defined.

(** **** C6 *)

Lemma update_state_rk4_witness :
  exists s1 : store float,
    rk4_block parameters thrust (vehicle manoeuvre) = (inr tt, s1) /\
    derivative_calls s1 =
      [manoeuvre; midpoint 0.015625 manoeuvre k1;
       midpoint 0.015625 manoeuvre k2; endpoint 0.015625 manoeuvre k3] /\
    _state (self s1) = rk4_combination 0.015625 manoeuvre k1 k2 k3 k4 /\
    step thrust (vehicle manoeuvre) = after_rk4 no_euler tt s1 /\
    derivative_calls (snd (step thrust (vehicle manoeuvre)))
      = derivative_calls s1.
Proof.
  destruct (@update_state_rk4 float _ parameters no_euler (forces6 float)
              given_forces unit thrust tt (vehicle manoeuvre) k1 k2 k3 k4)
    as (s1 & Hrk & Hcalls & Hstate & Hrun & Hno_more & _).
  - vm_compute. reflexivity.
  - vm_compute. reflexivity.
  - vm_compute. reflexivity.
  - vm_compute. reflexivity.
  - exists s1. repeat split; assumption.
Defined.

End FloatRun.

(** ** The lift computation: properties *)

Module LongitudinalForcesFacts.
Import LongitudinalForces LiftSpec LiftInputs.
Local Open Scope R_scope.

Section Lift.
Variable MAVa : aero_parameters.

(** The blending factor and the lift force are the specified ones. *)
Lemma sigma_alpha_spec (alpha : R) : sigma_alpha MAVa alpha = sigma_spec MAVa alpha.
Proof.
  unfold sigma_alpha, sigma_spec.
  rewrite <- Ropp_mult_distr_l. reflexivity.
Qed.

Lemma F_lift_spec (alpha Va q de : R) :
  F_lift MAVa alpha Va q de = lift_force MAVa (CL_alpha MAVa alpha) Va q de.
Proof. unfold F_lift, lift_force, Rsqr. lra. Qed.

(** The blending factor lies strictly below 1. *)
Lemma sigma_spec_lt_1 (alpha : R) : 0 < 1 - sigma_spec MAVa alpha.
Proof.
  unfold sigma_spec.
  set (a := exp (- (M_ MAVa * (alpha - alpha0 MAVa)))).
  set (b := exp (M_ MAVa * (alpha + alpha0 MAVa))).
  assert (Ha : 0 < a) by apply exp_pos.
  assert (Hb : 0 < b) by apply exp_pos.
  replace (1 - (1 + a + b) / ((1 + a) * (1 + b)))
    with (a * b / ((1 + a) * (1 + b))) by (field; lra).
  apply Rdiv_lt_0_compat; nra.
Qed.

(** The coefficient the code computes against the specified one: the linear
    term has [C_L_alpha] where the formula has [C_L_alpha * alpha]. *)
Lemma CL_alpha_gap (alpha : R) :
  CL_alpha MAVa alpha - blended_lift_coefficient MAVa alpha =
  (1 - sigma_spec MAVa alpha) * C_L_alpha MAVa * (1 - alpha).
Proof.
  unfold CL_alpha, blended_lift_coefficient.
  rewrite sigma_alpha_spec. unfold Rsqr. ring.
Qed.

Lemma CL_alpha_departs (alpha : R) :
  C_L_alpha MAVa <> 0 -> alpha <> 1 ->
  CL_alpha MAVa alpha <> blended_lift_coefficient MAVa alpha.
Proof.
  intros HC Ha E.
  pose proof (CL_alpha_gap alpha) as Hgap.
  pose proof (sigma_spec_lt_1 alpha) as Hs.
  rewrite E, Rminus_diag in Hgap. symmetry in Hgap.
  apply Rmult_integral in Hgap as [Hgap | Hgap]; [ | lra ].
  apply Rmult_integral in Hgap as [Hgap | Hgap]; [ lra | contradiction ].
Qed.

End Lift.

(** **** C9 *)

(** C9, at the input where the code departs from it.  At zero angle of
    attack the specified blended lift coefficient is (1 - sigma(0)) C_L0;
    the code computes (1 - sigma(0)) (C_L0 + C_Lalpha), because its linear
    term adds C_Lalpha without multiplying it by alpha.  With C_Lalpha = 3.45
    the two differ.  (The blending factor and the lift force computed from
    the coefficient are as specified: [sigma_alpha_spec], [F_lift_spec].) *)
Theorem lift_coefficient_at_zero_alpha :
  blended_lift_coefficient aerosonde 0 =
    (1 - sigma_spec aerosonde 0) * (28 / 100) /\
  CL_alpha aerosonde 0 =
    (1 - sigma_spec aerosonde 0) * (28 / 100 + 345 / 100) /\
  CL_alpha aerosonde 0 <> blended_lift_coefficient aerosonde 0.
Proof.
  split; [ | split ].
  - unfold blended_lift_coefficient. rewrite sin_0. unfold Rsqr. cbn. ring.
  - unfold CL_alpha. rewrite sigma_alpha_spec, sin_0. cbn. ring.
  - apply CL_alpha_departs; cbn; lra.
Qed.

End LongitudinalForcesFacts.

(** * Part V: further properties of the sources *)

(** ** The path manager from call to call *)

Module PathManagerMore.
Import Path Waypoints PathManager PathManagerSpec PathManagerFacts.
Import PathManagerCalls.
Local Open Scope Z_scope.

Section Generic.
Context {F : Type} `{Scalar F}.

Lemma np_index_beyond {A} (l : list A) (i : Z) :
  Z.of_nat (List.length l) <= i -> np_index l i = inl IndexError.
Proof.
  intros Hi. unfold np_index.
  destruct (Z.ltb_spec i 0) as [Hneg | _]; [ lia | ].
  destruct (Z.ltb_spec i (Z.of_nat (List.length l))) as [Hlt | _]; [ lia | ].
  rewrite andb_false_r. reflexivity.
Qed.

Lemma ned_col_fail (ptr : path_manager F -> Z) (s : store F) (e : exn) :
  np_index (ned (waypoints s)) (ptr (self s)) = inl e ->
  ned_col ptr s = (inl e, s).
Proof. intros Hw. unfold ned_col, bind, get, lift. rewrite Hw. reflexivity. Qed.

(** Once the flag has been dealt with it is down. *)
Lemma list_change_handled_flag (s : store F) :
  flag_waypoints_changed (waypoints (list_change_handled s)) = false.
Proof.
  unfold list_change_handled.
  destruct (flag_waypoints_changed (waypoints s)) eqn:E; [ reflexivity | exact E ].
Qed.

Lemma list_change_handled_idle (s : store F) :
  flag_waypoints_changed (waypoints s) = false -> list_change_handled s = s.
Proof. intros E. unfold list_change_handled. rewrite E. reflexivity. Qed.

(** *** The invariant of the pointers *)

Lemma update_settles (radius : F) (state : msg_state F) (s : store F) :
  flag_waypoints_changed (waypoints s) = true ->
  2 <= Waypoints.num_waypoints (waypoints s) ->
  settled (Waypoints.num_waypoints (waypoints s))
          (snd (update radius state s)).
Proof.
  intros Hflag Hn.
  pose proof (update_steps radius state s) as Hs. cbv zeta in Hs.
  destruct Hs as (Hw & Hnum & Hp).
  assert (H1 : num_waypoints (self (list_change_handled s)) =
               Waypoints.num_waypoints (waypoints s) /\
               pointers (self (list_change_handled s)) = (0, 1, 2)).
  { unfold list_change_handled. rewrite Hflag. split; reflexivity. }
  destruct H1 as [H1 H2]. unfold pointers in *.
  injection H2 as P0 P1 P2. rewrite P0, P1, P2, H1 in Hp.
  unfold settled, pointers_in_list.
  rewrite Hw, list_change_handled_flag, Hnum, H1.
  split; [ reflexivity | ]. split; [ reflexivity | ].
  destruct Hp as [Hp | [Hlt Hp]]; injection Hp as -> -> ->; lia.
Qed.

Lemma update_stays_settled (N : Z) (radius : F) (state : msg_state F)
      (s : store F) :
  settled N s -> settled N (snd (update radius state s)).
Proof.
  intros (Hflag & HN & H0 & Hc & Hn & Hb).
  pose proof (update_steps radius state s) as Hs. cbv zeta in Hs.
  rewrite (list_change_handled_idle s Hflag) in Hs.
  destruct Hs as (Hw & Hnum & Hp). unfold pointers in Hp.
  unfold settled, pointers_in_list. rewrite Hw, Hnum.
  split; [ exact Hflag | ]. split; [ exact HN | ].
  destruct Hp as [Hp | [Hlt Hp]]; injection Hp as -> -> ->; lia.
Qed.

Lemma updates_stay_settled (N : Z) (calls : list (F * msg_state F))
      (s : store F) :
  settled N s -> settled N (updates calls s).
Proof.
  revert s. induction calls as [ | c calls IH]; intros s Hs.
  - exact Hs.
  - apply IH. apply update_stays_settled. exact Hs.
Qed.

(** Over any sequence of calls that starts on a changed list of at least two
    waypoints, and during which the caller does not raise the flag again:
    after every call the manager holds the list's [num_waypoints], the
    pointers are consecutive and not negative, and [ptr_current] is at most
    [num_waypoints - 1].  ([ptr_next], one above, can be [num_waypoints].) *)
Theorem updates_pointers_in_list
    (c : F * msg_state F) (calls : list (F * msg_state F)) (s : store F) :
  flag_waypoints_changed (waypoints s) = true ->
  2 <= Waypoints.num_waypoints (waypoints s) ->
  let s' := updates (c :: calls) s in
  flag_waypoints_changed (waypoints s') = false /\
  num_waypoints (self s') = Waypoints.num_waypoints (waypoints s) /\
  0 <= ptr_previous (self s') /\
  ptr_current (self s') = ptr_previous (self s') + 1 /\
  ptr_next (self s') = ptr_current (self s') + 1 /\
  ptr_current (self s') <= num_waypoints (self s') - 1 /\
  ptr_next (self s') <= num_waypoints (self s').
Proof.
  intros Hflag Hn. cbv zeta.
  pose proof (updates_stay_settled calls
                (update_settles (fst c) (snd c) s Hflag Hn)) as Hs.
  change (updates calls (snd (update (fst c) (snd c) s)))
    with (updates (c :: calls) s) in Hs.
  destruct Hs as (Hf & HN & H0 & Hc & Hx & Hb).
  repeat split; try assumption. lia.
Qed.

(** *** A pointer beyond the array *)

(** In straight-line mode, when [ptr_next] is at or beyond the number of
    columns of [ned], [update] ends in [IndexError] at its first read: the
    handling of the waypoints-changed flag has taken effect, and nothing
    else has been written. *)
Theorem update_ptr_next_beyond_array
    (radius : F) (state : msg_state F) (s : store F) :
  type (waypoints s) = "straight_line"%string ->
  Z.of_nat (List.length (ned (waypoints (list_change_handled s))))
    <= ptr_next (self (list_change_handled s)) ->
  update radius state s = (inl IndexError, list_change_handled s).
Proof.
  intros Hty Hlen.
  rewrite update_unfold. cbv zeta.
  rewrite list_change_handled_type, Hty. cbn [String.eqb Ascii.eqb Bool.eqb].
  unfold line_manager.
  erewrite bind_fail;
    [ reflexivity | apply ned_col_fail; apply np_index_beyond; exact Hlen ].
Qed.

(** *** A call that does not switch *)

(** In straight-line mode with in-bounds pointers, a call that does not
    switch segments leaves the manager at a fixed point: the same call again
    returns the same path and changes nothing. *)
Theorem update_not_crossed_fixed_point
    (radius : F) (state : msg_state F) (s : store F)
    (wprev wcur wnext : vec3 F) (acur anext : F) :
  type (waypoints s) = "straight_line"%string ->
  in_bounds (list_change_handled s) wprev wcur wnext acur anext ->
  crossed wprev wcur wnext state = false ->
  exists s2 : store F,
    update radius state s = (inr (path (self s2)), s2) /\
    update radius state s2 = (inr (path (self s2)), s2) /\
    flag_path_changed (path (self s2)) = false.
Proof.
  intros Hty Hin Hc.
  pose proof (list_change_handled_flag s) as Hflag.
  pose proof (list_change_handled_type s) as Hty1. rewrite Hty in Hty1.
  set (s1 := list_change_handled s) in *.
  eexists. split; [ | split ].
  - rewrite update_unfold. cbv zeta. fold s1.
    rewrite Hty1. cbn [String.eqb Ascii.eqb Bool.eqb].
    rewrite (line_manager_in_bounds state Hin). cbv zeta. rewrite Hc.
    reflexivity.
  - rewrite update_unfold. cbv zeta.
    rewrite list_change_handled_idle by exact Hflag.
    cbn [waypoints]. rewrite Hty1. cbn [String.eqb Ascii.eqb Bool.eqb].
    erewrite line_manager_in_bounds by exact Hin.
    cbv zeta. rewrite Hc. reflexivity.
  - reflexivity.
Qed.

(** *** The need-new-waypoints flag *)

Lemma Flag_kept_bind {A B} (c : M (store F) A) (k : A -> M (store F) B) :
  Flag_kept c -> (forall a, Flag_kept (k a)) -> Flag_kept (bind c k).
Proof.
  intros Hc Hk s. unfold bind. specialize (Hc s).
  destruct (c s) as [[e | a] s1]; cbn in *; [ exact Hc | ].
  intros Hs. apply (Hk a s1). apply Hc. exact Hs.
Qed.

Lemma Flag_kept_on_path (f : msg_path F -> msg_path F) :
  Flag_kept (on_path f).
Proof. intros s Hs. exact Hs. Qed.

Lemma Flag_kept_set_halfspace_n (v : vec3 F) : Flag_kept (set_halfspace_n v).
Proof. intros s Hs. exact Hs. Qed.

Lemma Flag_kept_set_halfspace_r (v : vec3 F) : Flag_kept (set_halfspace_r v).
Proof. intros s Hs. exact Hs. Qed.

Lemma Flag_kept_ned_col (ptr : path_manager F -> Z) : Flag_kept (ned_col ptr).
Proof.
  intros s Hs. unfold ned_col, bind, get, lift. cbn.
  destruct (np_index (ned (waypoints s)) (ptr (self s))); exact Hs.
Qed.

Lemma Flag_kept_airspeed_item (ptr : path_manager F -> Z) :
  Flag_kept (airspeed_item ptr).
Proof.
  intros s Hs. unfold airspeed_item, bind, get, lift. cbn.
  destruct (np_index (Waypoints.airspeed (waypoints s)) (ptr (self s)));
    exact Hs.
Qed.

Lemma Flag_kept_inHalfSpace (pos : vec3 F) : Flag_kept (inHalfSpace pos).
Proof. intros s Hs. rewrite inHalfSpace_run. exact Hs. Qed.

Lemma Flag_kept_increment_pointers : Flag_kept (F := F) increment_pointers.
Proof.
  intros s Hs. rewrite increment_pointers_run. cbn.
  destruct (ptr_current (self s) <? num_waypoints (self s) - 1);
    [ exact Hs | reflexivity ].
Qed.

Lemma Flag_kept_line_manager (state : msg_state F) :
  Flag_kept (line_manager state).
Proof.
  unfold line_manager, set_path_flag, set_path_airspeed, set_line_origin,
    set_line_direction, set_flag_path_changed.
  repeat first
    [ apply Flag_kept_increment_pointers
    | apply Flag_kept_on_path
    | apply Flag_kept_bind;
      [ first [ apply Flag_kept_ned_col | apply Flag_kept_airspeed_item
              | apply Flag_kept_on_path | apply Flag_kept_set_halfspace_n
              | apply Flag_kept_set_halfspace_r | apply Flag_kept_inHalfSpace ]
      | intros ? ]
    | progress cbv zeta
    | match goal with |- Flag_kept (if ?b then _ else _) => destruct b end ].
Qed.

(** On a list that has not changed, a manager that has asked for new
    waypoints goes on asking: [update] never lowers
    [flag_need_new_waypoints], whatever the type of the list and however
    the call ends. *)
Theorem update_keeps_need_new_waypoints
    (radius : F) (state : msg_state F) (s : store F) :
  flag_waypoints_changed (waypoints s) = false ->
  flag_need_new_waypoints (self s) = true ->
  flag_need_new_waypoints (self (snd (update radius state s))) = true.
Proof.
  intros Hflag Hneed.
  rewrite update_unfold. cbv zeta.
  rewrite (list_change_handled_idle s Hflag).
  destruct (type (waypoints s) =? "straight_line")%string.
  - pose proof (Flag_kept_line_manager state s Hneed) as Hk.
    destruct (line_manager state s) as [[e | []] s2]; exact Hk.
  - destruct (type (waypoints s) =? "fillet")%string;
      [ | destruct (type (waypoints s) =? "dubins")%string ];
      exact Hneed.
Qed.

(** *** Arrays of exactly [num_waypoints] columns *)

Lemma np_index_inr_below {A} (l : list A) (i : Z) (a : A) :
  np_index l i = inr a -> i < Z.of_nat (List.length l).
Proof.
  unfold np_index.
  destruct (Z.ltb_spec i 0) as [Hneg | Hpos].
  - intros _. lia.
  - destruct (Z.ltb_spec i (Z.of_nat (List.length l))) as [Hlt | Hge];
      [ intros _; exact Hlt | rewrite andb_false_r; discriminate ].
Qed.

Lemma airspeed_item_fail (ptr : path_manager F -> Z) (s : store F) (e : exn) :
  np_index (Waypoints.airspeed (waypoints s)) (ptr (self s)) = inl e ->
  airspeed_item ptr s = (inl e, s).
Proof.
  intros Ha. unfold airspeed_item, bind, get, lift. rewrite Ha. reflexivity.
Qed.

(** One statement of [line_manager]: a read that succeeds, a write, or a
    read that raises. *)
Ltac run_read :=
  erewrite bind_ok
    by (first [ apply ned_col_ok | apply airspeed_item_ok ]; cbn; eassumption).

Ltac run_write :=
  erewrite bind_ok by reflexivity;
  cbn [self waypoints stdout path ptr_previous ptr_current ptr_next
       flag_need_new_waypoints num_waypoints halfspace_n halfspace_r
       manager_state flag Path.airspeed line_origin line_direction
       flag_path_changed].

Ltac run_read_fail :=
  erewrite bind_fail
    by (first [ apply ned_col_fail | apply airspeed_item_fail ];
        cbn; eassumption).

(** [line_manager] touches the need-new-waypoints flag only at the end of a
    switch, and raises it only from [ptr_current >= num_waypoints - 1], the
    column at [ptr_next] having been read. *)
Lemma line_manager_need_flag (state : msg_state F) (s : store F) :
  flag_need_new_waypoints (self (snd (line_manager state s)))
    = flag_need_new_waypoints (self s) \/
  (num_waypoints (self s) - 1 <= ptr_current (self s) /\
   exists w : vec3 F,
     np_index (ned (waypoints s)) (ptr_next (self s)) = inr w).
Proof.
  unfold line_manager.
  destruct (np_index (ned (waypoints s)) (ptr_next (self s)))
    as [e | wn] eqn:En; [ run_read_fail; left; reflexivity | ].
  destruct (np_index (ned (waypoints s)) (ptr_current (self s)))
    as [e | wc] eqn:Ec; [ run_read; run_read_fail; left; reflexivity | ].
  destruct (np_index (ned (waypoints s)) (ptr_previous (self s)))
    as [e | wp] eqn:Ep;
    [ do 3 run_read; run_read_fail; left; reflexivity | ].
  do 4 run_read. cbv zeta.
  run_write. run_read. run_write.
  erewrite bind_ok by apply inHalfSpace_run. cbn.
  destruct (ge0 _).
  - run_write.
    destruct (np_index (Waypoints.airspeed (waypoints s)) (ptr_next (self s)))
      as [e | an] eqn:Ean; [ run_read_fail; left; reflexivity | ].
    run_read. run_write. run_read. do 3 run_write.
    rewrite increment_pointers_run. cbn.
    destruct (Z.ltb_spec (ptr_current (self s)) (num_waypoints (self s) - 1));
      [ left; reflexivity | right; split; [ assumption | eauto ] ].
  - do 2 run_write.
    destruct (np_index (Waypoints.airspeed (waypoints s))
                (ptr_current (self s)))
      as [e | ac] eqn:Eac; [ run_read_fail; left; reflexivity | ].
    run_read. run_write. run_read. run_write. left. reflexivity.
Qed.

(** When the arrays of the waypoint object have exactly [num_waypoints]
    columns and [ptr_next] is one above [ptr_current], [update] cannot ask
    for new waypoints: to raise the flag it would have to switch from
    [ptr_current >= num_waypoints - 1], and the read of the column at
    [ptr_next] that comes first ends the call in [IndexError]. *)
Theorem update_never_asks_on_exact_arrays
    (radius : F) (state : msg_state F) (s : store F) :
  flag_waypoints_changed (waypoints s) = false ->
  Z.of_nat (List.length (ned (waypoints s))) = num_waypoints (self s) ->
  ptr_next (self s) = ptr_current (self s) + 1 ->
  flag_need_new_waypoints (self (snd (update radius state s)))
    = flag_need_new_waypoints (self s).
Proof.
  intros Hflag Hlen Hnext.
  rewrite update_unfold. cbv zeta.
  rewrite (list_change_handled_idle s Hflag).
  destruct (type (waypoints s) =? "straight_line")%string.
  - pose proof (line_manager_need_flag state s) as Hk.
    destruct (line_manager state s) as [[e | []] s2]; cbn in *;
      (destruct Hk as [Hk | [Hge [w Hw]]]; [ exact Hk | ]);
      apply np_index_inr_below in Hw; lia.
  - destruct (type (waypoints s) =? "fillet")%string;
      [ | destruct (type (waypoints s) =? "dubins")%string ];
      reflexivity.
Qed.

End Generic.
End PathManagerMore.

(** ** The path manager from call to call, on binary64 *)

Module PathManagerMoreFloat.
Import Path Waypoints PathManager PathManagerSpec PathManagerFacts.
Import PathManagerCalls Binary64 Binary64Facts.
Import PathManagerInputs PathManagerInputsMore.
Local Open Scope Z_scope.

(** *** The vehicle at the waypoint *)

Lemma mul_zero_finite (y : float) :
  finiteF y = true -> zeroF (PrimFloat.mul 0 y) = true.
Proof.
  unfold finiteF, zeroF. rewrite mul_spec.
  change (Prim2SF 0) with (S754_zero false).
  destruct (Prim2SF y) as [ [|] | [|] | | [|] m e ];
    try discriminate; reflexivity.
Qed.

Lemma add_zero_zero (x y : float) :
  zeroF x = true -> zeroF y = true -> zeroF (PrimFloat.add x y) = true.
Proof.
  unfold zeroF. rewrite add_spec.
  destruct (Prim2SF x) as [ [|] | | | ]; try discriminate;
    destruct (Prim2SF y) as [ [|] | | | ]; try discriminate; reflexivity.
Qed.

Lemma ge0_zeroF (x : float) : zeroF x = true -> ge0 x = true.
Proof.
  unfold zeroF. cbn. rewrite leb_spec.
  change (Prim2SF 0) with (S754_zero false).
  destruct (Prim2SF x) as [ [|] | | | ]; try discriminate; reflexivity.
Qed.

(** The zero vector against a finite one: the three products are zeros, and
    so is their sum. *)
Lemma vdot_zero_finite (n : vec3 float) :
  finite3 n = true ->
  zeroF (vdot (Vec3 0%float 0%float 0%float) n) = true.
Proof.
  unfold finite3, vdot. intros Hn.
  apply andb_prop in Hn as [Hn Hz]. apply andb_prop in Hn as [Hx Hy].
  cbn. repeat apply add_zero_zero; apply mul_zero_finite; assumption.
Qed.

(** In straight-line mode with in-bounds pointers, a vehicle exactly at
    waypoint[ptr_current] is on the switching plane and counts as having
    crossed it, provided the waypoint and the half-space normal are finite:
    [update] returns the segment that starts at that waypoint, flagged
    changed. *)
Theorem update_at_waypoint_switches
    (radius : float) (state : msg_state float) (s : store float)
    (wprev wcur wnext : vec3 float) (acur anext : float) :
  type (waypoints s) = "straight_line"%string ->
  in_bounds (list_change_handled s) wprev wcur wnext acur anext ->
  position state = wcur ->
  finite3 wcur = true ->
  finite3 (halfspace_normal wprev wcur wnext) = true ->
  exists s2 : store float,
    update radius state s = (inr (path (self s2)), s2) /\
    path (self s2) =
      Path.Build "line" anext wcur (unit_vector wcur wnext) true /\
    halfspace_r (self s2) = wcur.
Proof.
  intros Hty Hin Hpos Fc Fn.
  assert (Hc : crossed wprev wcur wnext state = true).
  { unfold crossed. rewrite Hpos, (vsub_self _ Fc).
    apply ge0_zeroF, vdot_zero_finite. exact Fn. }
  rewrite update_unfold. cbv zeta.
  rewrite list_change_handled_type, Hty. cbn [String.eqb Ascii.eqb Bool.eqb].
  rewrite (line_manager_in_bounds state Hin). cbv zeta. rewrite Hc.
  destruct (ptr_current (self (list_change_handled s)) <?
            num_waypoints (self (list_change_handled s)) - 1);
    eexists; (split; [ reflexivity | split; reflexivity ]).
Qed.

Lemma update_at_waypoint_switches_witness :
  exists s2 : store float,
    update 0%float (at_position 100 0 0) (start "straight_line" square_route)
      = (inr (path (self s2)), s2) /\
    path (self s2) =
      Path.Build "line" 20%float (Vec3 100 0 0)%float
        (unit_vector (Vec3 100 0 0) (Vec3 100 100 0))%float true /\
    halfspace_r (self s2) = (Vec3 100 0 0)%float.
Proof.
  apply (@update_at_waypoint_switches 0%float (at_position 100 0 0)
           (start "straight_line" square_route)
           (Vec3 0 0 0)%float (Vec3 100 0 0)%float (Vec3 100 100 0)%float
           20%float 20%float).
  - reflexivity.
  - repeat split.
  - reflexivity.
  - reflexivity.
  - vm_compute. reflexivity.
Defined.

(** *** The properties of the calls, on the routes *)

(** The square route flown through its second and third waypoint. *)
Lemma updates_pointers_in_list_witness :
  let s' := updates square_flight (start "straight_line" square_route) in
  flag_waypoints_changed (waypoints s') = false /\
  num_waypoints (self s') = 4 /\
  0 <= ptr_previous (self s') /\
  ptr_current (self s') = ptr_previous (self s') + 1 /\
  ptr_next (self s') = ptr_current (self s') + 1 /\
  ptr_current (self s') <= num_waypoints (self s') - 1 /\
  ptr_next (self s') <= num_waypoints (self s').
Proof.
  apply (@PathManagerMore.updates_pointers_in_list float _
           (0%float, at_position 100 0 0)
           [(0%float, at_position 100 100 0); (0%float, at_position 50 100 0)]
           (start "straight_line" square_route)).
  - reflexivity.
  - cbn. lia.
Defined.

Lemma update_pointers_on_fixed_list_witness :
  let m := self on_first_segment in
  let m' := self (snd (update 0%float (at_position 100 0 0)
                         on_first_segment)) in
  ptr_previous m <= ptr_previous m' /\
  ptr_current m <= ptr_current m' /\
  ptr_next m <= ptr_next m' /\
  num_waypoints m' = num_waypoints m /\
  (ptr_current m = ptr_previous m + 1 -> ptr_next m = ptr_current m + 1 ->
   ptr_current m' = ptr_previous m' + 1 /\ ptr_next m' = ptr_current m' + 1) /\
  (ptr_current m <= num_waypoints m - 1 ->
   ptr_current m' <= num_waypoints m' - 1) /\
  (ptr_next m <= num_waypoints m -> ptr_next m = ptr_current m + 1 ->
   ptr_next m' <= num_waypoints m').
Proof.
  apply (@update_pointers_on_fixed_list float _ 0%float (at_position 100 0 0)
           on_first_segment).
  vm_compute. reflexivity.
Defined.

(** Two waypoints only: [ptr_next] is 2 and there is no column 2. *)
Lemma update_ptr_next_beyond_array_witness :
  update 0%float (at_position 5 0 0) (start "straight_line" two_waypoints)
    = (inl IndexError,
       list_change_handled (start "straight_line" two_waypoints)).
Proof.
  apply (@PathManagerMore.update_ptr_next_beyond_array float _ 0%float
           (at_position 5 0 0) (start "straight_line" two_waypoints)).
  - reflexivity.
  - vm_compute. discriminate.
Defined.

(** Half way along the first side of the square. *)
Lemma update_not_crossed_fixed_point_witness :
  exists s2 : store float,
    update 0%float (at_position 50 0 0) (start "straight_line" square_route)
      = (inr (path (self s2)), s2) /\
    update 0%float (at_position 50 0 0) s2 = (inr (path (self s2)), s2) /\
    flag_path_changed (path (self s2)) = false.
Proof.
  apply (@PathManagerMore.update_not_crossed_fixed_point float _ 0%float
           (at_position 50 0 0) (start "straight_line" square_route)
           (Vec3 0 0 0)%float (Vec3 100 0 0)%float (Vec3 100 100 0)%float
           20%float 20%float).
  - reflexivity.
  - repeat split.
  - vm_compute. reflexivity.
Defined.

(** At the end of the padded list the manager has asked for new waypoints;
    a further call leaves the request up. *)
Lemma update_keeps_need_new_waypoints_witness :
  flag_need_new_waypoints (self at_end_of_route) = true /\
  flag_need_new_waypoints
    (self (snd (update 0%float (at_position 25 0 0) at_end_of_route))) = true.
Proof.
  split; [ vm_compute; reflexivity | ].
  apply (@PathManagerMore.update_keeps_need_new_waypoints float _ 0%float
           (at_position 25 0 0) at_end_of_route).
  - vm_compute. reflexivity.
  - vm_compute. reflexivity.
Defined.

(** On the square route, whose arrays have four columns for four
    waypoints. *)
Lemma update_never_asks_on_exact_arrays_witness :
  flag_need_new_waypoints
    (self (snd (update 0%float (at_position 100 0 0) on_first_segment)))
  = flag_need_new_waypoints (self on_first_segment).
Proof.
  apply (@PathManagerMore.update_never_asks_on_exact_arrays float _ 0%float
           (at_position 100 0 0) on_first_segment).
  - vm_compute. reflexivity.
  - vm_compute. reflexivity.
  - vm_compute. reflexivity.
Defined.

End PathManagerMoreFloat.

(** ** The integrator: how a step ends *)

Module MavDynamicsMore.
Import MavDynamics MavDynamicsSpec MavDynamicsFacts.

Section Generic.
Context {F : Type} `{Scalar F}.
Variable MAVp : MAV_parameters F.
Variable Quaternion2Euler : F * F * F * F -> F * F * F.
Variable Deltas : Type.
Variable calcForcesAndMoments : mav_dynamics F -> Deltas -> forces6 F.
Variable Wind : Type.

(** After a step that completes, the true-state message is the one of the
    state the step has left (position, height as minus the down coordinate,
    the Euler angles of the normalised quaternion, the rates), and the time
    step of the simulation is as it was. *)
Theorem update_state_message_agrees
    (deltas : Deltas) (wind : Wind) (s : store F) :
  let run :=
    update_state MAVp Quaternion2Euler calcForcesAndMoments deltas wind s in
  fst run = inr tt ->
  msg_true_state (self (snd run)) =
    true_state_of Quaternion2Euler (_state (self (snd run))) /\
  ts_simulation (self (snd run)) = ts_simulation (self s).
Proof.
  cbv zeta. rewrite update_state_unfold.
  set (fm := calcForcesAndMoments (self s) deltas).
  destruct (@rk4_block_cases _ _ MAVp fm s)
    as [(k1 & k2 & k3 & k4 & H1 & H2 & H3 & H4)
       | (e & y & s' & Hy & Hrk & _)].
  - erewrite bind_ok by (eapply rk4_block_ok; eassumption).
    match goal with |- context [ after_rk4 _ wind ?t ] => set (s1 := t) end.
    destruct (normalize_block_cases Quaternion2Euler s1)
      as [(a0 & a1 & a2 & a3 & P0 & P1 & P2 & P3) | (e & He & _)].
    + erewrite after_rk4_ok by eassumption. intros _.
      cbv zeta. split; reflexivity.
    + unfold after_rk4. erewrite bind_fail by exact He. discriminate.
  - erewrite bind_fail by exact Hrk. discriminate.
Qed.

(** A step that ends in an exception leaves the true-state message as it
    was, and the state in one of two conditions.  Either an evaluation of
    [_derivatives] has raised, and the state is untouched; or the four
    evaluations have succeeded, a square of the normalisation has raised,
    and the state is the Runge-Kutta combination with its quaternion not
    normalised: the state has advanced by a step although the call
    failed. *)
Theorem update_state_exception
    (deltas : Deltas) (wind : Wind) (s : store F) (e : exn) :
  let run :=
    update_state MAVp Quaternion2Euler calcForcesAndMoments deltas wind s in
  let forces_moments := calcForcesAndMoments (self s) deltas in
  let x := _state (self s) in
  let time_step := ts_simulation (self s) in
  fst run = inl e ->
  msg_true_state (self (snd run)) = msg_true_state (self s) /\
  ((_state (self (snd run)) = x /\
    exists y : state13 F, _derivatives MAVp y forces_moments = inl e) \/
   (exists k1 k2 k3 k4 : state13 F,
      _derivatives MAVp x forces_moments = inr k1 /\
      _derivatives MAVp (midpoint time_step x k1) forces_moments = inr k2 /\
      _derivatives MAVp (midpoint time_step x k2) forces_moments = inr k3 /\
      _derivatives MAVp (endpoint time_step x k3) forces_moments = inr k4 /\
      _state (self (snd run)) = rk4_combination time_step x k1 k2 k3 k4 /\
      exists y : F, py_pow2 y = inl e)).
Proof.
  cbv zeta. rewrite update_state_unfold.
  set (fm := calcForcesAndMoments (self s) deltas).
  destruct (@rk4_block_cases _ _ MAVp fm s)
    as [(k1 & k2 & k3 & k4 & H1 & H2 & H3 & H4)
       | (e' & y & s' & Hy & Hrk & Hself)].
  - erewrite bind_ok by (eapply rk4_block_ok; eassumption).
    match goal with |- context [ after_rk4 _ wind ?t ] => set (s1 := t) end.
    destruct (normalize_block_cases Quaternion2Euler s1)
      as [(a0 & a1 & a2 & a3 & P0 & P1 & P2 & P3) | (e' & He & Hsq)].
    + erewrite after_rk4_ok by eassumption. discriminate.
    + unfold after_rk4. erewrite bind_fail by exact He.
      intros [= <-]. split; [ reflexivity | ].
      right. exists k1, k2, k3, k4.
      repeat (split; [ assumption | ]).
      split; [ reflexivity | ].
      destruct Hsq as [Hq | [Hq | [Hq | Hq]]]; eauto.
  - erewrite bind_fail by exact Hrk.
    intros [= <-]. cbn [snd]. rewrite Hself.
    split; [ reflexivity | ]. left. split; [ reflexivity | eauto ].
Qed.

End Generic.
End MavDynamicsMore.

(** ** The integrator without rotation, on binary64 *)

Module MavDynamicsMoreFloat.
Import MavDynamics MavDynamicsSpec MavDynamicsFacts MavDynamicsNotions.
Import Binary64 Binary64Facts PathManagerInputsMore.
Local Open Scope float_scope.

(** *** Zeros *)

Lemma zeroF_finite (x : float) : zeroF x = true -> finiteF x = true.
Proof.
  unfold zeroF, finiteF. destruct (Prim2SF x); try discriminate; reflexivity.
Qed.

Lemma zero_mul_l (x y : float) :
  zeroF x = true -> finiteF y = true -> zeroF (x * y) = true.
Proof.
  unfold zeroF, finiteF. rewrite mul_spec.
  destruct (Prim2SF x) as [ sx | | | ]; try discriminate.
  destruct (Prim2SF y) as [ sy | | | sy m e ]; try discriminate; reflexivity.
Qed.

Lemma zero_mul_r (x y : float) :
  finiteF x = true -> zeroF y = true -> zeroF (x * y) = true.
Proof.
  unfold zeroF, finiteF. rewrite mul_spec.
  destruct (Prim2SF y) as [ sy | | | ]; try discriminate.
  destruct (Prim2SF x) as [ sx | | | sx m e ]; try discriminate; reflexivity.
Qed.

Lemma zero_add (x y : float) :
  zeroF x = true -> zeroF y = true -> zeroF (x + y) = true.
Proof.
  unfold zeroF. rewrite add_spec.
  destruct (Prim2SF x) as [ [|] | | | ]; try discriminate;
    destruct (Prim2SF y) as [ [|] | | | ]; try discriminate; reflexivity.
Qed.

Lemma zero_sub (x y : float) :
  zeroF x = true -> zeroF y = true -> zeroF (x - y) = true.
Proof.
  unfold zeroF. rewrite sub_spec.
  destruct (Prim2SF x) as [ [|] | | | ]; try discriminate;
    destruct (Prim2SF y) as [ [|] | | | ]; try discriminate; reflexivity.
Qed.

(** [+0] plus a zero is [+0]. *)
Lemma add_pos_zero (z : float) : zeroF z = true -> 0 + z = 0.
Proof.
  unfold zeroF. intros Hz. apply Prim2SF_inj. rewrite add_spec.
  change (Prim2SF 0) with (S754_zero false).
  destruct (Prim2SF z) as [ [|] | | | ]; try discriminate; reflexivity.
Qed.

(** *** Numbers up to the sign of a zero *)

Lemma same_number_refl (a : float) : same_number a a.
Proof. left. reflexivity. Qed.

Lemma same_number_trans (a b c : float) :
  same_number a b -> same_number b c -> same_number a c.
Proof.
  intros [-> | [Za Zb]] [-> | [Zb' Zc]].
  - left. reflexivity.
  - right. split; assumption.
  - right. split; assumption.
  - right. split; assumption.
Qed.

(** Adding a zero changes at most the sign of a zero. *)
Lemma add_zero_same (x z : float) :
  zeroF z = true -> same_number (x + z) x.
Proof.
  unfold same_number, zeroF. intros Hz.
  destruct (Prim2SF z) as [ sz | | | ] eqn:Ez; try discriminate.
  destruct (Prim2SF x) as [ sx | sx | | sx m e ] eqn:Ex.
  - right. rewrite add_spec, Ex, Ez. destruct sx, sz; split; reflexivity.
  - left. apply Prim2SF_inj. rewrite add_spec, Ex, Ez. reflexivity.
  - left. apply Prim2SF_inj. rewrite add_spec, Ex, Ez. reflexivity.
  - left. apply Prim2SF_inj. rewrite add_spec, Ex, Ez. reflexivity.
Qed.

Lemma same_number_square (a b : float) :
  same_number a b -> a * a = b * b.
Proof.
  intros [-> | [Za Zb]]; [ reflexivity | ].
  unfold zeroF in Za, Zb. apply Prim2SF_inj. rewrite !mul_spec.
  destruct (Prim2SF a) as [ [|] | | | ]; try discriminate;
    destruct (Prim2SF b) as [ [|] | | | ]; try discriminate; reflexivity.
Qed.

Lemma same_number_finite (a b : float) :
  same_number a b -> finiteF b = true -> finiteF a = true.
Proof.
  intros [-> | [Za _]] Hb; [ exact Hb | apply zeroF_finite; exact Za ].
Qed.

(** Numbers that differ in the sign of a zero at most have quotients by the
    same divisor that differ in the sign of a zero at most. *)
Lemma same_number_div (a b n : float) :
  same_number a b -> same_number (a / n) (b / n).
Proof.
  intros [-> | [Za Zb]]; [ left; reflexivity | ].
  unfold same_number, zeroF in *.
  destruct (Prim2SF a) as [ sa | | | ] eqn:Ea; try discriminate.
  destruct (Prim2SF b) as [ sb | | | ] eqn:Eb; try discriminate.
  destruct (Prim2SF n) as [ sn | sn | | sn m e ] eqn:En.
  - left. apply Prim2SF_inj. rewrite !div_spec, Ea, Eb, En. reflexivity.
  - right. rewrite !div_spec, Ea, Eb, En. split; reflexivity.
  - left. apply Prim2SF_inj. rewrite !div_spec, Ea, Eb, En. reflexivity.
  - right. rewrite !div_spec, Ea, Eb, En. split; reflexivity.
Qed.

(** *** Python's square and reciprocal where they return *)

Lemma float_pow2_ok (x : float) :
  finiteF (x * x) = true -> float_pow2 x = inr (x * x).
Proof.
  intros Hx. unfold float_pow2. rewrite Hx, andb_false_r. reflexivity.
Qed.

Lemma float_pow2_same (a b : float) :
  same_number a b -> finiteF (b * b) = true -> float_pow2 a = inr (a * a).
Proof.
  intros Hab Hb. apply float_pow2_ok.
  rewrite (same_number_square Hab). exact Hb.
Qed.

Lemma float_pow2_zero : float_pow2 0 = inr 0.
Proof. reflexivity. Qed.

Lemma float_div_ok (x y : float) :
  PrimFloat.eqb y 0 = false -> float_div x y = inr (x / y).
Proof. intros Hy. unfold float_div. rewrite Hy. reflexivity. Qed.

(** *** The hypotheses, taken apart *)

Lemma usable_elim (MAVp : MAV_parameters float) (time_step : float) :
  usable MAVp time_step = true ->
  PrimFloat.eqb (mass MAVp) 0 = false /\ PrimFloat.eqb (Jy MAVp) 0 = false /\
  finiteF (1 / Jy MAVp) = true /\
  finiteF (gamma1 MAVp) = true /\ finiteF (gamma2 MAVp) = true /\
  finiteF (gamma3 MAVp) = true /\ finiteF (gamma4 MAVp) = true /\
  finiteF (gamma5 MAVp) = true /\ finiteF (gamma6 MAVp) = true /\
  finiteF (gamma7 MAVp) = true /\ finiteF (gamma8 MAVp) = true /\
  finiteF time_step = true /\ finiteF (time_step / 2) = true /\
  finiteF (time_step / 6) = true.
Proof.
  unfold usable. intros Hu.
  repeat (apply andb_prop in Hu; destruct Hu as [Hu ?]).
  apply negb_true_iff in Hu.
  match goal with Hj : negb _ = true |- _ => apply negb_true_iff in Hj end.
  repeat split; assumption.
Qed.

Lemma squares_in_range_elim (x : state13 float) :
  squares_in_range x = true ->
  finiteF (item6 x * item6 x) = true /\ finiteF (item7 x * item7 x) = true /\
  finiteF (item8 x * item8 x) = true /\ finiteF (item9 x * item9 x) = true.
Proof.
  unfold squares_in_range. intros Hx.
  repeat (apply andb_prop in Hx; destruct Hx as [Hx ?]).
  repeat split; assumption.
Qed.

(** A sum, difference or product of zeros and finite numbers that is a
    zero. *)
Ltac zeros :=
  lazymatch goal with
  | |- zeroF (PrimFloat.add _ _) = true => apply zero_add; zeros
  | |- zeroF (PrimFloat.sub _ _) = true => apply zero_sub; zeros
  | |- zeroF (PrimFloat.mul _ _) = true =>
      first [ apply zero_mul_l; [ zeros | finite_factor ]
            | apply zero_mul_r; [ finite_factor | zeros ] ]
  | |- zeroF _ = true => first [ assumption | reflexivity ]
  end
with finite_factor :=
  first [ assumption | reflexivity | apply zeroF_finite; zeros ].

Lemma calm_refl (x : state13 float) : no_rotation x -> calm x x.
Proof.
  intros Hx. unfold calm. repeat split; try apply Hx; apply same_number_refl.
Qed.

(** An estimate [x + c k] with a rotation-free rate is as calm as [x]. *)
Lemma calm_estimate (c : float) (x0 x k : state13 float) :
  finiteF c = true -> rotation_free k -> calm x0 x ->
  calm x0 (add13 x (scale13 c k)).
Proof.
  intros Hc (Z6 & Z7 & Z8 & Z9 & Z10 & Z11 & Z12)
         ((Hp & Hq & Hr) & S6 & S7 & S8 & S9).
  cbn [zero Scalar_float] in Hp, Hq, Hr.
  unfold calm, no_rotation.
  cbn [add13 scale13 item6 item7 item8 item9 item10 item11 item12
       add mul zero Scalar_float].
  rewrite Hp, Hq, Hr.
  repeat split;
    first [ apply add_pos_zero; zeros
          | eapply same_number_trans; [ apply add_zero_same; zeros | ];
            assumption ].
Qed.

Section Float.
Variable MAVp : MAV_parameters float.
Variable Quaternion2Euler : float * float * float * float
                            -> float * float * float.
Variable Deltas : Type.
Variable calcForcesAndMoments : mav_dynamics float -> Deltas -> forces6 float.
Variable Wind : Type.

(** At a calm state and without moments, [_derivatives] returns, and the
    rates it gives the quaternion and the angular rates are zeros. *)
Lemma derivatives_calm (time_step : float) (x0 x : state13 float)
      (fm : forces6 float) :
  usable MAVp time_step = true -> squares_in_range x0 = true ->
  no_moments fm -> calm x0 x ->
  exists k : state13 float,
    _derivatives MAVp x fm = inr k /\ rotation_free k.
Proof.
  intros Hu Hsq (Hl & Hm & Hn) ((Hp & Hq & Hr) & S6 & S7 & S8 & S9).
  cbn [zero Scalar_float] in Hl, Hm, Hn, Hp, Hq, Hr.
  destruct (usable_elim _ _ Hu)
    as (Hmass & HJy & FJ & G1 & G2 & G3 & G4 & G5 & G6 & G7 & G8 & _).
  destruct (squares_in_range_elim _ Hsq) as (Q6 & Q7 & Q8 & Q9).
  pose proof (float_pow2_same S6 Q6) as P6.
  pose proof (float_pow2_same S7 Q7) as P7.
  pose proof (float_pow2_same S8 Q8) as P8.
  pose proof (float_pow2_same S9 Q9) as P9.
  assert (F6 : finiteF (item6 x) = true)
    by (apply (same_number_finite S6); apply (finite_mul_inv _ _ Q6)).
  assert (F7 : finiteF (item7 x) = true)
    by (apply (same_number_finite S7); apply (finite_mul_inv _ _ Q7)).
  assert (F8 : finiteF (item8 x) = true)
    by (apply (same_number_finite S8); apply (finite_mul_inv _ _ Q8)).
  assert (F9 : finiteF (item9 x) = true)
    by (apply (same_number_finite S9); apply (finite_mul_inv _ _ Q9)).
  unfold _derivatives, ebind. cbv zeta.
  cbn [py_pow2 py_div one Scalar_float].
  rewrite P7, P6, P8, P9, (float_div_ok _ Hmass), Hp, Hr,
    float_pow2_zero, (float_div_ok _ HJy).
  eexists. split; [ reflexivity | ].
  unfold rotation_free.
  cbn [item6 item7 item8 item9 item10 item11 item12
       add sub mul opp half Scalar_float].
  rewrite Hq, Hl, Hm, Hn.
  repeat split; zeros.
Qed.

(** A vehicle that does not rotate and meets no moments keeps its attitude
    through a step, on binary64: when the constants are usable and the
    squares of the quaternion components do not overflow, the step
    completes, the angular rates are still [+0], and each quaternion
    component stored is the one before the step over the computed norm, up
    to the sign of a zero. *)
Theorem update_state_without_rotation
    (deltas : Deltas) (wind : Wind) (s : store float) :
  no_rotation (_state (self s)) ->
  no_moments (calcForcesAndMoments (self s) deltas) ->
  usable MAVp (ts_simulation (self s)) = true ->
  squares_in_range (_state (self s)) = true ->
  exists s2 : store float,
    update_state MAVp Quaternion2Euler calcForcesAndMoments deltas wind s
      = (inr tt, s2) /\
    no_rotation (_state (self s2)) /\
    let x := _state (self s) in
    let normE := computed_norm x in
    same_number (item6 (_state (self s2))) (item6 x / normE) /\
    same_number (item7 (_state (self s2))) (item7 x / normE) /\
    same_number (item8 (_state (self s2))) (item8 x / normE) /\
    same_number (item9 (_state (self s2))) (item9 x / normE).
Proof.
  intros Hrot Hmom Hu Hsq.
  set (fm := calcForcesAndMoments (self s) deltas) in *.
  set (x := _state (self s)) in *.
  set (ts := ts_simulation (self s)) in *.
  destruct (usable_elim _ _ Hu)
    as (_ & _ & _ & _ & _ & _ & _ & _ & _ & _ & _ & T1 & T2 & T6).
  pose proof (calm_refl Hrot) as C0.
  destruct (@derivatives_calm ts x x fm Hu Hsq Hmom C0) as (k1 & H1 & Z1).
  destruct (@derivatives_calm ts x _ fm Hu Hsq Hmom
              (@calm_estimate (ts / 2) x x k1 T2 Z1 C0))
    as (k2 & H2 & Z2).
  destruct (@derivatives_calm ts x _ fm Hu Hsq Hmom
              (@calm_estimate (ts / 2) x x k2 T2 Z2 C0))
    as (k3 & H3 & Z3).
  destruct (@derivatives_calm ts x _ fm Hu Hsq Hmom
              (@calm_estimate ts x x k3 T1 Z3 C0))
    as (k4 & H4 & Z4).
  pose proof (@rk4_block_ok float _ MAVp fm s k1 k2 k3 k4 H1 H2 H3 H4) as Hrk.
  cbv zeta in Hrk. fold x ts in Hrk.
  set (c := rk4_combination ts x k1 k2 k3 k4) in *.
  assert (Cc : calm x c).
  { destruct (rk4_combination_items ts x k1 k2 k3 k4)
      as (_ & _ & _ & _ & _ & _ & E6 & E7 & E8 & E9 & E10 & E11 & E12).
    fold c in E6, E7, E8, E9, E10, E11, E12.
    cbn [add mul div two six Scalar_float] in E6, E7, E8, E9, E10, E11, E12.
    destruct Z1 as (A6 & A7 & A8 & A9 & A10 & A11 & A12).
    destruct Z2 as (B6 & B7 & B8 & B9 & B10 & B11 & B12).
    destruct Z3 as (D6 & D7 & D8 & D9 & D10 & D11 & D12).
    destruct Z4 as (J6 & J7 & J8 & J9 & J10 & J11 & J12).
    destruct Hrot as (Hp & Hq & Hr).
    cbn [zero Scalar_float] in Hp, Hq, Hr.
    unfold calm, no_rotation. cbn [zero Scalar_float].
    rewrite E6, E7, E8, E9, E10, E11, E12, Hp, Hq, Hr.
    repeat split;
      first [ apply add_pos_zero; zeros | apply add_zero_same; zeros ]. }
  destruct (squares_in_range_elim _ Hsq) as (Q6 & Q7 & Q8 & Q9).
  destruct Cc as ((Cp & Cq & Cr) & S6 & S7 & S8 & S9).
  eexists. split.
  { rewrite update_state_unfold. fold fm.
    erewrite bind_ok by exact Hrk.
    erewrite after_rk4_ok;
      [ reflexivity
      | exact (float_pow2_same S6 Q6) | exact (float_pow2_same S7 Q7)
      | exact (float_pow2_same S8 Q8) | exact (float_pow2_same S9 Q9) ]. }
  cbv zeta. unfold no_rotation, computed_norm.
  cbn [self _state quaternion_over item6 item7 item8 item9
       item10 item11 item12 add div sqrt Scalar_float].
  rewrite (same_number_square S6), (same_number_square S7),
    (same_number_square S8), (same_number_square S9).
  split; [ repeat split; assumption | ].
  repeat split; apply same_number_div; assumption.
Qed.

End Float.
End MavDynamicsMoreFloat.

(** ** The further properties of the integrator on concrete steps *)

Module MavDynamicsMoreRun.
Import MavDynamics MavDynamicsSpec MavDynamicsNotions.
Import FloatInputsMore.

(** The climbing turn of the binary64 runs completes. *)
Lemma update_state_message_agrees_witness :
  let run := FloatInputs.step FloatInputs.thrust
               (FloatInputs.vehicle FloatInputs.manoeuvre) in
  msg_true_state (self (snd run)) =
    true_state_of FloatInputs.no_euler (_state (self (snd run))) /\
  ts_simulation (self (snd run)) = 0.015625%float.
Proof.
  apply (@MavDynamicsMore.update_state_message_agrees float _
           FloatInputs.parameters FloatInputs.no_euler (forces6 float)
           FloatInputs.given_forces unit FloatInputs.thrust tt
           (FloatInputs.vehicle FloatInputs.manoeuvre)).
  vm_compute. reflexivity.
Defined.

(** With the quaternion (2^600, 0, 0, 0) the first evaluation of
    [_derivatives] ends in [OverflowError]. *)
Lemma update_state_exception_witness :
  let s := FloatInputs.vehicle huge_quaternion in
  let run := FloatInputs.step FloatInputs.no_forces s in
  fst run = inl OverflowError /\
  msg_true_state (self (snd run)) = msg_true_state (self s) /\
  ((_state (self (snd run)) = huge_quaternion /\
    exists y : state13 float,
      _derivatives FloatInputs.parameters y FloatInputs.no_forces
        = inl OverflowError) \/
   (exists k1 k2 k3 k4 : state13 float,
      _derivatives FloatInputs.parameters huge_quaternion
        FloatInputs.no_forces = inr k1 /\
      _derivatives FloatInputs.parameters
        (midpoint 0.015625%float huge_quaternion k1) FloatInputs.no_forces
        = inr k2 /\
      _derivatives FloatInputs.parameters
        (midpoint 0.015625%float huge_quaternion k2) FloatInputs.no_forces
        = inr k3 /\
      _derivatives FloatInputs.parameters
        (endpoint 0.015625%float huge_quaternion k3) FloatInputs.no_forces
        = inr k4 /\
      _state (self (snd run)) =
        rk4_combination 0.015625%float huge_quaternion k1 k2 k3 k4 /\
      exists y : float, py_pow2 y = inl OverflowError)).
Proof.
  cbv zeta. split; [ vm_compute; reflexivity | ].
  apply (@MavDynamicsMore.update_state_exception float _
           FloatInputs.parameters FloatInputs.no_euler (forces6 float)
           FloatInputs.given_forces unit FloatInputs.no_forces tt
           (FloatInputs.vehicle huge_quaternion) OverflowError).
  vm_compute. reflexivity.
Defined.

(** The banked glide under drag and lift. *)
Lemma update_state_without_rotation_witness :
  exists s2 : store float,
    FloatInputs.step drag_and_lift (FloatInputs.vehicle banked_glide)
      = (inr tt, s2) /\
    no_rotation (_state (self s2)) /\
    let normE := computed_norm banked_glide in
    same_number (item6 (_state (self s2))) (0.5 / normE)%float /\
    same_number (item7 (_state (self s2))) (0.5 / normE)%float /\
    same_number (item8 (_state (self s2))) (0.5 / normE)%float /\
    same_number (item9 (_state (self s2))) (0.5 / normE)%float.
Proof.
  apply (@MavDynamicsMoreFloat.update_state_without_rotation
           FloatInputs.parameters FloatInputs.no_euler (forces6 float)
           FloatInputs.given_forces unit drag_and_lift tt
           (FloatInputs.vehicle banked_glide)).
  - repeat split.
  - repeat split.
  - vm_compute. reflexivity.
  - vm_compute. reflexivity.
Defined.

End MavDynamicsMoreRun.
